(** * Brain tissue segmentation pipeline driver (bin/main.py)

    A shallow embedding of [main], the driver of the medical image
    analysis pipeline, together with the pieces of the array library,
    of [os.path] and of the pipeline utilities that [main] drives.

    Numbers are exact rationals ([Qc]); Python exceptions are values of
    [exn]; the module state of [putil], the two random generators, the
    clock and the log of the calls [main] makes on its collaborators
    (file writes, figures, classifier and evaluator calls) live in
    [World]. Console progress lines are left out; the two statistics
    reports are kept, one [EvReport] per printed table. *)

From Stdlib Require Import ZArith QArith Qcanon Qround Ascii String.
From stdpp Require Import base numbers option list strings pretty gmap.

Set Default Proof Using "Type".
Local Open Scope string_scope.
Local Open Scope list_scope.

(** ** Python exceptions *)

Inductive exn : Type :=
  | IndexError
  | KeyError (key : string)
  | ValueError (what : string)
  | NotFittedError
  | DegenerateInputError
  | Raised (who : string).

Global Instance Result_ret : MRet (sum exn) := λ A x, inr x.

Global Instance Result_bind : MBind (sum exn) := λ A B f m,
  match m with
  | inl e => inl e
  | inr x => f x
  end.

Abbreviation Result A := (sum exn A).
Abbreviation Ok := inr (only parsing).
Abbreviation Err := inl (only parsing).

(** ** os.path (posix flavour) *)

Module OsPath.

Definition is_abs (p : string) : bool :=
  match p with
  | String c _ => bool_decide (c = "/"%char)
  | EmptyString => false
  end.

Fixpoint ends_with_sep (p : string) : bool :=
  match p with
  | EmptyString => false
  | String c EmptyString => bool_decide (c = "/"%char)
  | String _ rest => ends_with_sep rest
  end.

(** [os.path.join(a, b)]: an absolute [b] discards [a]; a separator is
    inserted unless [a] is empty or already ends with one. *)
Definition join (a b : string) : string :=
  if is_abs b then b
  else if bool_decide (a = EmptyString) || ends_with_sep a then a +:+ b
  else a +:+ "/" +:+ b.

End OsPath.

(** ** The array library: n-dimensional arrays in row-major order *)

Module Np.

Record ndarray : Type := NdArray { shape : list nat; data : list Qc }.

Global Instance ndarray_eq_dec : EqDecision ndarray.
Proof. solve_decision. Defined.

Definition prod_shape (sh : list nat) : nat := foldr Nat.mul 1 sh.

(** An array is well shaped when it holds as many items as its shape says. *)
Definition well_shaped (a : ndarray) : Prop :=
  length (data a) = prod_shape (shape a).

(** Length of the first axis; a 0-d array has none. *)
Definition rows (a : ndarray) : nat := hd 0 (shape a).

(** Number of items in one slice along the first axis. *)
Definition row_width (a : ndarray) : nat := prod_shape (tl (shape a)).

(** [a[i]] for a row index [i]: the [i]-th slice along the first axis,
    as the flat run of its items. *)
Definition row (a : ndarray) (i : nat) : list Qc :=
  take (row_width a) (drop (i * row_width a) (data a)).

(** [a.flat[i]] *)
Definition item (a : ndarray) (i : nat) : option Qc := data a !! i.

Definition same_tail (tl0 : list nat) (b : ndarray) : bool :=
  match shape b with
  | [] => false
  | _ :: tl1 => bool_decide (tl1 = tl0)
  end.

(** [np.concatenate(arrs)] along axis 0. It raises on an empty
    sequence, on 0-d arrays and when the trailing dimensions differ. *)
Definition concatenate (arrs : list ndarray) : Result ndarray :=
  match arrs with
  | [] => Err (ValueError "need at least one array to concatenate")
  | a :: rest =>
      match shape a with
      | [] => Err (ValueError "zero-dimensional arrays cannot be concatenated")
      | _ :: tl0 =>
          if forallb (same_tail tl0) rest
          then Ok (NdArray (sum_list (rows <$> arrs) :: tl0)
                           (mjoin (data <$> arrs)))
          else Err (ValueError "all the input array dimensions must match")
      end
  end.

(** [a.squeeze()]: axes of length one are dropped, the items stay. *)
Definition squeeze (a : ndarray) : ndarray :=
  NdArray (filter (λ d, d ≠ 1) (shape a)) (data a).

(** The cast behind [astype(np.uint8)]: truncate, then wrap to 8 bits. *)
Definition to_uint8 (x : Qc) : Qc :=
  Qc_of_Z ((Qnum (this x) `quot` Z.pos (Qden (this x))) `mod` 256).

Definition astype_uint8 (a : ndarray) : ndarray :=
  NdArray (shape a) (to_uint8 <$> data a).

Fixpoint add_items (xs ys : list Qc) : list Qc :=
  match xs, ys with
  | x :: xs', y :: ys' => (x + y)%Qc :: add_items xs' ys'
  | _, _ => []
  end.

(** [np.sum(arrs, axis=0)] of a list of arrays: the list becomes one
    array with a new leading axis, which is summed away. An empty list
    sums to the 0-d array holding 0; arrays of different shapes do
    not stack. The items are added in list order as exact rationals,
    where the array library adds floating-point numbers: what is
    proved of a sum is its shape, its positions and when it raises,
    nothing that depends on rounding or on the order of the addends. *)
Definition sum_axis0 (arrs : list ndarray) : Result ndarray :=
  match arrs with
  | [] => Ok (NdArray [] [0%Qc])
  | a :: rest =>
      if forallb (λ b, bool_decide (shape b = shape a)) rest
      then Ok (NdArray (shape a)
                       (foldl (λ acc b, add_items acc (data b)) (data a) rest))
      else Err (ValueError "inhomogeneous shape")
  end.

(** [a / n] for an integer [n]. The array library answers a zero
    divisor with nan or inf, which [Qc] does not have; the only zero
    divisor [main] can produce comes with a 0-d dividend, whose
    subscripts raise before any item is read. *)
Definition divide (a : ndarray) (n : nat) : ndarray :=
  NdArray (shape a) ((λ x, x / Qc_of_Z (Z.of_nat n))%Qc <$> data a).

(** [a[w, i]]: two subscripts need two axes and both in range; what is
    left is the sub-array at that position (0-d for a matrix). *)
Definition getitem2 (a : ndarray) (w i : nat) : Result ndarray :=
  match shape a with
  | d0 :: d1 :: rest =>
      if bool_decide (w < d0) && bool_decide (i < d1)
      then Ok (NdArray rest (take (prod_shape rest)
                                  (drop ((w * d1 + i) * prod_shape rest) (data a))))
      else Err IndexError
  | _ => Err IndexError
  end.

End Np.

Import Np.

(** ** mialab.data.structure *)

(** The keys of a subject's image dictionary (an [enum.Enum]). *)
Inductive BrainImageTypes : Type :=
  | T1w | T2w | GroundTruth | BrainMask | RegistrationTransform.

Global Instance BrainImageTypes_eq_dec : EqDecision BrainImageTypes.
Proof. solve_decision. Defined.

Definition BrainImageTypes_value (k : BrainImageTypes) : nat :=
  match k with
  | T1w => 1 | T2w => 2 | GroundTruth => 3 | BrainMask => 4
  | RegistrationTransform => 5
  end.

Definition BrainImageTypes_of_value (n : nat) : option BrainImageTypes :=
  match n with
  | 1 => Some T1w | 2 => Some T2w | 3 => Some GroundTruth
  | 4 => Some BrainMask | 5 => Some RegistrationTransform
  | _ => None
  end.

Global Instance BrainImageTypes_countable : Countable BrainImageTypes.
Proof.
  apply (inj_countable BrainImageTypes_value BrainImageTypes_of_value).
  by intros [].
Defined.

Definition BrainImageTypes_name (k : BrainImageTypes) : string :=
  match k with
  | T1w => "BrainImageTypes.T1w"
  | T2w => "BrainImageTypes.T2w"
  | GroundTruth => "BrainImageTypes.GroundTruth"
  | BrainMask => "BrainImageTypes.BrainMask"
  | RegistrationTransform => "BrainImageTypes.RegistrationTransform"
  end.

(** The geometry of a volume: what is needed to rebuild an image from a
    flat array. *)
Record ImageProperties : Type := {
  size : list nat;
  origin : list Qc;
  spacing : list Qc;
  direction : list Qc;
}.

Global Instance ImageProperties_eq_dec : EqDecision ImageProperties.
Proof. solve_decision. Defined.

(** An image of the imaging toolkit: voxel values and geometry. *)
Record Image : Type := { pixels : ndarray; properties : ImageProperties }.

Global Instance Image_eq_dec : EqDecision Image.
Proof. solve_decision. Defined.

Global Instance Image_inhabited : Inhabited Image :=
  populate {| pixels := NdArray [] [];
              properties := {| size := []; origin := []; spacing := [];
                               direction := [] |} |}.

(** [structure.BrainImage], once pre-processed: [feature_matrix] is the
    pair (features, labels). *)
Record BrainImage : Type := {
  id_ : string;
  images : gmap BrainImageTypes Image;
  feature_matrix : ndarray * ndarray;
  image_properties : ImageProperties;
}.

(** [conversion.NumpySimpleITKImageBridge.convert(array, properties)]:
    the array is given the geometry [properties]. *)
Definition convert (array : ndarray) (props : ImageProperties) : Image :=
  {| pixels := array; properties := props |}.

(** The constructor arguments of the ensemble classifier. *)
Record Hyper : Type := {
  max_features : nat;
  n_estimators : nat;
  max_depth : nat;
}.

(** ** The collaborators outside this file

    The crawler, the atlas reader, the per-subject pre- and
    post-processing of the pipeline utilities and the ensemble library
    are consumed through this interface. A collaborator that draws
    random numbers takes the states of both generators and hands back
    the new ones. *)
Class Externals : Type := {
  Rng : Type;
  random_seed : Z → Rng;
  np_random_seed : Z → Rng;
  Model : Type;
  SubjectFiles : Type;
  Atlas : Type;
  (** [load.FileSystemDataCrawler(dir, LOADING_KEYS, ...).data] *)
  crawler_data : string → list (string * SubjectFiles);
  read_atlas : string → Result Atlas;
  (** the value [putil] gives [evaluate_BraTS] when it initialises it *)
  evaluate_BraTS_initial : bool;
  (** one subject of [putil.pre_process_batch]: the processed subject
      and the entries it leaves in the two statistics lists *)
  pre_process_subject :
    string → SubjectFiles → gmap string bool → string → string →
    bool → option Atlas → Rng * Rng →
    Result (BrainImage * ndarray * ndarray * (Rng * Rng));
  (** one subject of [putil.post_process_batch] *)
  post_process_subject :
    BrainImage → Image → Image → gmap string bool → Result Image;
  get_masked_intensities : Image → Image → ndarray;
  forest_fit : Hyper → ndarray → ndarray → Rng * Rng → Result (Model * (Rng * Rng));
  forest_predict : Model → ndarray → Result ndarray;
  forest_predict_proba : Model → ndarray → Result ndarray;
}.

Section Pipeline.

Context `{Externals}.

(** The ensemble object: its constructor arguments, and the trained
    model once [fit] has run. *)
Record Forest : Type := { hyper : Hyper; fitted : option Model }.

(** The calls [main] makes on its collaborators, in call order. *)
Inductive Event : Type :=
  | EvInitGlobal
  | EvPreProcessBatch (data : list (string * SubjectFiles))
      (params : gmap string bool) (norm_method artifact_method : string)
      (multi_process : bool)
  | EvPlotSlice (img : Image)
  | EvKdeplot (figure : nat) (intensities : ndarray)
  | EvSaveFig (figure : nat) (path : string)
  | EvWriteImage (img : Image) (path : string) (compress : bool)
  | EvReport (title : string) (cells : list (string * string * ndarray))
  | EvFit (hp : Hyper) (X y : ndarray)
  | EvPredict (f : Forest) (X : ndarray)
  | EvPredictProba (f : Forest) (X : ndarray)
  | EvMakedirs (path : string)
  | EvInitEvaluator (result_dir : string)
  | EvEvaluate (segmentation ground_truth : Image) (tag : string)
  | EvPostProcessBatch (subjects : list BrainImage)
      (predictions probabilities : list Image)
      (params : gmap string bool) (multi_process : bool).

(** Everything [main] can read or change besides its own locals. *)
Record World : Type := {
  py_random : Rng;                          (* the [random] module *)
  np_random : Rng;                          (* [np.random] *)
  now : string;                             (* the clock, formatted *)
  atlas : option Atlas;                     (* [putil]'s atlas images *)
  evaluate_BraTS : bool;                    (* [putil.evaluate_BraTS] *)
  feature_mean_intensities : list ndarray;  (* [putil.feature_mean_intensities] *)
  feature_std_intensities : list ndarray;   (* [putil.feature_std_intensities] *)
  trace : list Event;
}.

(** ** State and exceptions *)

Definition M (A : Type) : Type := World → Result (A * World).

Global Instance M_ret : MRet M := λ A x w, Ok (x, w).

Global Instance M_bind : MBind M := λ A B f m w,
  match m w with
  | inl e => Err e
  | inr (x, w') => f x w'
  end.

Definition lift {A} (r : Result A) : M A := λ w,
  match r with
  | inl e => Err e
  | inr x => Ok (x, w)
  end.

Definition gets {A} (f : World → A) : M A := λ w, Ok (f w, w).

Definition modify (f : World → World) : M unit := λ w, Ok (tt, f w).

Definition add_trace (evs : list Event) (w : World) : World :=
  {| py_random := py_random w; np_random := np_random w; now := now w;
     atlas := atlas w; evaluate_BraTS := evaluate_BraTS w;
     feature_mean_intensities := feature_mean_intensities w;
     feature_std_intensities := feature_std_intensities w;
     trace := trace w ++ evs |}.

Definition emit (e : Event) : M unit := modify (add_trace [e]).

Definition when (b : bool) (m : M unit) : M unit :=
  if b then m else mret tt.

(** [for x in l: body(x)], collecting what each round yields. *)
Fixpoint for_each {A B} (body : A → M B) (l : list A) : M (list B) :=
  match l with
  | [] => mret []
  | x :: rest =>
      y ← body x;
      ys ← for_each body rest;
      mret (y :: ys)
  end.

(** [l[i]] on a list *)
Definition list_getitem {A} (l : list A) (i : nat) : Result A :=
  match l !! i with
  | Some x => Ok x
  | None => Err IndexError
  end.

(** [d[k]] on a dictionary with string keys *)
Definition dict_getitem {A} (d : gmap string A) (k : string) : Result A :=
  match d !! k with
  | Some x => Ok x
  | None => Err (KeyError k)
  end.

(** [img.images[k]] *)
Definition image_of (img : BrainImage) (k : BrainImageTypes) : Result Image :=
  match images img !! k with
  | Some x => Ok x
  | None => Err (KeyError (BrainImageTypes_name k))
  end.

(** [enumerate(l)] *)
Definition enumerate {A} (l : list A) : list (nat * A) :=
  zip (seq 0 (length l)) l.

(** ** mialab.utilities.pipeline_utilities *)

(** Modelled from the spec: [putil.init_global_variable] is not among
    the sources. The two statistics lists are reset to empty (spec,
    data model: "reset at the start of a training pass ... reset again
    before a testing pass"), and [evaluate_BraTS] gets its initial
    value. *)
Definition init_global_variable : M unit :=
  modify (λ w,
    {| py_random := py_random w; np_random := np_random w; now := now w;
       atlas := atlas w; evaluate_BraTS := evaluate_BraTS_initial;
       feature_mean_intensities := [];
       feature_std_intensities := [];
       trace := trace w ++ [EvInitGlobal] |}).

(** [putil.evaluate_BraTS = b] *)
Definition set_evaluate_BraTS (b : bool) : M unit :=
  modify (λ w,
    {| py_random := py_random w; np_random := np_random w; now := now w;
       atlas := atlas w; evaluate_BraTS := b;
       feature_mean_intensities := feature_mean_intensities w;
       feature_std_intensities := feature_std_intensities w;
       trace := trace w |}).

(** Modelled from the spec: [putil.load_atlas_images] is not among the
    sources. It reads the atlas and keeps it in module state. *)
Definition load_atlas_images (dir : string) : M unit :=
  a ← lift (read_atlas dir);
  modify (λ w,
    {| py_random := py_random w; np_random := np_random w; now := now w;
       atlas := Some a; evaluate_BraTS := evaluate_BraTS w;
       feature_mean_intensities := feature_mean_intensities w;
       feature_std_intensities := feature_std_intensities w;
       trace := trace w |}).

(** Modelled from the spec: [putil.pre_process] is not among the
    sources. One subject is loaded, pre-processed and its features
    extracted; as a side effect its per-class mean and standard
    deviation are appended to the statistics lists (spec 4.2). *)
Definition pre_process (params : gmap string bool)
    (norm_method artifact_method : string)
    (entry : string * SubjectFiles) : M BrainImage := λ w,
  match pre_process_subject entry.1 entry.2 params norm_method artifact_method
          (evaluate_BraTS w) (atlas w) (py_random w, np_random w) with
  | inl e => Err e
  | inr (img, mean, std, (r1, r2)) =>
      Ok (img,
          {| py_random := r1; np_random := r2; now := now w;
             atlas := atlas w; evaluate_BraTS := evaluate_BraTS w;
             feature_mean_intensities := feature_mean_intensities w ++ [mean];
             feature_std_intensities := feature_std_intensities w ++ [std];
             trace := trace w |})
  end.

(** Modelled from the spec: [putil.pre_process_batch] is not among the
    sources. The subjects are processed one by one and come out in
    the order they came in (spec 4.3); the first failing subject
    aborts the batch. *)
Definition pre_process_batch (data : list (string * SubjectFiles))
    (params : gmap string bool) (norm_method artifact_method : string)
    (multi_process : bool) : M (list BrainImage) :=
  emit (EvPreProcessBatch data params norm_method artifact_method multi_process);;
  for_each (pre_process params norm_method artifact_method) data.

(** Modelled from the spec: [putil.post_process_batch] is not among
    the sources. Each subject is post-processed from its own
    prediction and probabilities, and the results come out in subject
    order (spec 5). *)
Definition post_process_batch (brain_images : list BrainImage)
    (segmentations probabilities : list Image)
    (params : gmap string bool) (multi_process : bool) : M (list Image) :=
  emit (EvPostProcessBatch brain_images segmentations probabilities
          params multi_process);;
  for_each (λ '(img, seg, prob), lift (post_process_subject img seg prob params))
           (zip (zip brain_images segmentations) probabilities).

(** The evaluator object handed out by [putil.init_evaluator]. *)
Record Evaluator : Type := { eval_dir : string }.

(** Modelled from the spec: [putil.init_evaluator] is not among the
    sources. *)
Definition init_evaluator (result_dir : string) : M Evaluator :=
  emit (EvInitEvaluator result_dir);;
  mret {| eval_dir := result_dir |}.

(** [evaluator.evaluate(segmentation, ground_truth, tag)]: the result
    is appended to the run-wide record set (spec 4.6). *)
Definition evaluate (ev : Evaluator) (segmentation ground_truth : Image)
    (tag : string) : M unit :=
  emit (EvEvaluate segmentation ground_truth tag).

(** ** The ensemble classifier *)

(** [forest.fit(X, y)]: trains in place, drawing from the generators. *)
Definition train (f : Forest) (X y : ndarray) : M Forest := λ w,
  match forest_fit (hyper f) X y (py_random w, np_random w) with
  | inl e => Err e
  | inr (m, (r1, r2)) =>
      Ok ({| hyper := hyper f; fitted := Some m |},
          {| py_random := r1; np_random := r2; now := now w;
             atlas := atlas w; evaluate_BraTS := evaluate_BraTS w;
             feature_mean_intensities := feature_mean_intensities w;
             feature_std_intensities := feature_std_intensities w;
             trace := trace w |})
  end.

Definition fit (f : Forest) (X y : ndarray) : M Forest :=
  emit (EvFit (hyper f) X y);;
  train f X y.

(** [forest.predict(X)] *)
Definition predict (f : Forest) (X : ndarray) : M ndarray :=
  emit (EvPredict f X);;
  match fitted f with
  | None => lift (Err NotFittedError)
  | Some m => lift (forest_predict m X)
  end.

(** [forest.predict_proba(X)] *)
Definition predict_proba (f : Forest) (X : ndarray) : M ndarray :=
  emit (EvPredictProba f X);;
  match fitted f with
  | None => lift (Err NotFittedError)
  | Some m => lift (forest_predict_proba m X)
  end.

(** ** bin/main.py *)

(** [random.seed(seed)] *)
Definition seed_random (seed : Z) : M unit :=
  modify (λ w,
    {| py_random := random_seed seed; np_random := np_random w; now := now w;
       atlas := atlas w; evaluate_BraTS := evaluate_BraTS w;
       feature_mean_intensities := feature_mean_intensities w;
       feature_std_intensities := feature_std_intensities w;
       trace := trace w |}).

(** [np.random.seed(seed)] *)
Definition seed_np_random (seed : Z) : M unit :=
  modify (λ w,
    {| py_random := py_random w; np_random := np_random_seed seed; now := now w;
       atlas := atlas w; evaluate_BraTS := evaluate_BraTS w;
       feature_mean_intensities := feature_mean_intensities w;
       feature_std_intensities := feature_std_intensities w;
       trace := trace w |}).

(** The choices [main] fixes in its body under the STUDENT comments:
    the pre-processing dictionary, the plot switches, the debug flag
    and the normalization and artifact procedures. *)
Record Settings : Type := {
  pre_process_params : gmap string bool;
  plot_slice : bool;
  plot_hist : bool;
  debug_BraTS : bool;
  chosen_norm_method : string;
  chosen_artifact_method : string;
}.

(** The values written in the source. *)
Definition shipped : Settings := {|
  pre_process_params :=
    <["skullstrip_pre" := true]> $
    <["normalization_pre" := false]> $
    <["artifact_pre" := false]> $
    <["registration_pre" := false]> $
    <["coordinates_feature" := true]> $
    <["intensity_feature" := true]> $
    <["gradient_intensity_feature" := true]> ∅;
  plot_slice := false;
  plot_hist := true;
  debug_BraTS := true;
  chosen_norm_method := "z";
  chosen_artifact_method := "zero frequencies";
|}.

Definition nl : string := String "010"%char EmptyString.
Definition tab : string := String "009"%char EmptyString.

(** lines 105-129: plots for inspection *)
Definition plots (cfg : Settings) (norm_method : string)
    (images_ : list BrainImage) : M unit :=
  when (plot_slice cfg) (
    img0 ← lift (list_getitem images_ 0);
    t1 ← lift (image_of img0 T1w);
    emit (EvPlotSlice t1));;
  when (plot_hist cfg) (
    let nr_samples := 1 in
    intensities ← for_each (λ i,
      a ← lift (list_getitem images_ i);
      t1 ← lift (image_of a T1w);
      b ← lift (list_getitem images_ i);
      m1 ← lift (image_of b BrainMask);
      c ← lift (list_getitem images_ i);
      t2 ← lift (image_of c T2w);
      d ← lift (list_getitem images_ i);
      m2 ← lift (image_of d BrainMask);
      mret (get_masked_intensities t1 m1, get_masked_intensities t2 m2))
      (seq 0 nr_samples);
    let intensities_T1w := intensities.*1 in
    let intensities_T2w := intensities.*2 in
    for_each (λ i,
      x1 ← lift (list_getitem intensities_T1w i);
      emit (EvKdeplot 1 x1);;
      x2 ← lift (list_getitem intensities_T2w i);
      emit (EvKdeplot 2 x2)) (seq 0 nr_samples);;
    for_each (λ i,
      emit (EvSaveFig (i + 1)
              ("./mia-result/plots/Result_Hist_norm-" +:+ norm_method +:+ "_T"
               +:+ pretty (i + 1) +:+ "w.png"))) (seq 0 2);;
    mret tt).

(** lines 131-136: save the pre-processed images for visual inspection *)
Definition save_normalized (norm_method : string)
    (images_ : list BrainImage) : M unit :=
  for_each (λ '(i, img),
    a ← lift (list_getitem images_ i);
    let save_to_t1w :=
      OsPath.join "./mia-result/norm images/"
        (norm_method +:+ "-norm_" +:+ id_ a +:+ "_T1w.nii.gz") in
    b ← lift (list_getitem images_ i);
    let save_to_t2w :=
      OsPath.join "./mia-result/norm images/"
        (norm_method +:+ "-norm_" +:+ id_ b +:+ "_T2w.nii.gz") in
    c ← lift (list_getitem images_ i);
    x ← lift (image_of c T1w);
    emit (EvWriteImage x save_to_t1w false);;
    d ← lift (list_getitem images_ i);
    y ← lift (image_of d T1w);
    emit (EvWriteImage y save_to_t2w false)) (enumerate images_);;
  mret tt.

Definition class_labels : list string :=
  ["White matter:"; "Grey matter:"; "Hippocampus:"; "Amygdala:   "; "Thalamus:   "].

Definition weighting : list string := ["T1w"; "T2w"].

(** The cells of one printed table: [a[w, i]] for the two weightings
    and the five classes. *)
Definition table_cells (a : ndarray) : Result (list (string * string * ndarray)) :=
  cells ← mapM (λ w,
    wname ← list_getitem weighting w;
    mapM (λ i,
      lname ← list_getitem class_labels i;
      v ← getitem2 a w i;
      mret (wname, lname +:+ tab, v)) (seq 0 5)) (seq 0 2);
  mret (mjoin cells).

Definition print_table (title : string) (a : ndarray) : M unit :=
  cells ← lift (table_cells a);
  emit (EvReport title cells).

Definition mean_title (phase : string) : string :=
  nl +:+ "----- Mean feature intensities in " +:+ phase +:+ " -----".

Definition std_title (phase : string) : string :=
  nl +:+ "----- Mean std of feature intensities in " +:+ phase +:+ " -----".

(** lines 138-153 and 192-207: the mean of the per-subject statistics
    accumulated in [putil], printed per weighting and class. *)
Definition report (phase : string) : M unit :=
  means ← gets feature_mean_intensities;
  total ← lift (sum_axis0 means);
  let mean := divide total (length means) in
  stds ← gets feature_std_intensities;
  total' ← lift (sum_axis0 stds);
  let std := divide total' (length stds) in
  print_table (mean_title phase) mean;;
  print_table (std_title phase) std.

(** lines 212-229: predict every test subject and evaluate the raw
    prediction *)
Definition predict_all (forest : Forest) (evaluator : Evaluator)
    (images_test : list BrainImage) : M (list (Image * Image)) :=
  for_each (λ img,
    predictions ← predict forest (feature_matrix img).1;
    probabilities ← predict_proba forest (feature_matrix img).1;
    let image_prediction :=
      convert (astype_uint8 predictions) (image_properties img) in
    let image_probabilities := convert probabilities (image_properties img) in
    gt ← lift (image_of img GroundTruth);
    evaluate evaluator image_prediction gt (id_ img);;
    mret (image_prediction, image_probabilities)) images_test.

(** lines 236-242: evaluate the post-processed segmentations and save
    both segmentations of every test subject *)
Definition evaluate_and_save (evaluator : Evaluator) (result_dir : string)
    (images_test : list BrainImage)
    (images_prediction images_post_processed : list Image) : M unit :=
  for_each (λ '(i, img),
    pp ← lift (list_getitem images_post_processed i);
    gt ← lift (image_of img GroundTruth);
    evaluate evaluator pp gt (id_ img +:+ "-PP");;
    seg ← lift (list_getitem images_prediction i);
    a ← lift (list_getitem images_test i);
    emit (EvWriteImage seg (OsPath.join result_dir (id_ a +:+ "_SEG.mha")) true);;
    pp' ← lift (list_getitem images_post_processed i);
    b ← lift (list_getitem images_test i);
    emit (EvWriteImage pp' (OsPath.join result_dir (id_ b +:+ "_SEG-PP.mha")) true))
    (enumerate images_test);;
  mret tt.

(** What [main]'s local variables hold when it returns. *)
Record Locals : Type := {
  images_train : list BrainImage;
  data_train : ndarray;
  labels_train : ndarray;
  forest_ : Forest;
  images_test_ : list BrainImage;
  images_prediction_ : list Image;
  images_probabilities_ : list Image;
  images_post_processed_ : list Image;
}.

Definition main_with (cfg : Settings)
    (result_dir data_atlas_dir data_train_dir data_test_dir : string) : M Locals :=
  let seed := 42%Z in
  seed_random seed;;
  seed_np_random seed;;
  load_atlas_images data_atlas_dir;;
  let crawler := crawler_data data_train_dir in
  let pre_process_params_ := pre_process_params cfg in
  init_global_variable;;
  set_evaluate_BraTS (debug_BraTS cfg);;
  let norm_method := chosen_norm_method cfg in
  normalization_pre ← lift (dict_getitem pre_process_params_ "normalization_pre");
  let norm_method := if negb normalization_pre then "no" else norm_method in
  let artifact_method := chosen_artifact_method cfg in
  artifact_pre ← lift (dict_getitem pre_process_params_ "artifact_pre");
  let artifact_method := if negb artifact_pre then "none" else artifact_method in
  images_ ← pre_process_batch crawler pre_process_params_ norm_method "none" false;
  plots cfg norm_method images_;;
  save_normalized norm_method images_;;
  report "training";;
  init_global_variable;;
  data_train_ ← lift (concatenate ((λ img, (feature_matrix img).1) <$> images_));
  labels ← lift (concatenate ((λ img, (feature_matrix img).2) <$> images_));
  let labels_train_ := squeeze labels in
  img0 ← lift (list_getitem images_ 0);
  n_features ← lift (list_getitem (shape (feature_matrix img0).1) 1);
  let forest :=
    {| hyper := {| max_features := n_features; n_estimators := 20; max_depth := 25 |};
       fitted := None |} in
  forest ← fit forest data_train_ labels_train_;
  t ← gets now;
  let result_dir := OsPath.join result_dir t in
  emit (EvMakedirs result_dir);;
  evaluator ← init_evaluator result_dir;
  let crawler := crawler_data data_test_dir in
  let pre_process_params_ := <["training" := false]> pre_process_params_ in
  images_test ← pre_process_batch crawler pre_process_params_ norm_method
                  artifact_method false;
  report "testing";;
  predicted ← predict_all forest evaluator images_test;
  let images_prediction := predicted.*1 in
  let images_probabilities := predicted.*2 in
  let post_process_params := <["simple_post" := true]> (∅ : gmap string bool) in
  images_post_processed ← post_process_batch images_test images_prediction
                            images_probabilities post_process_params true;
  evaluate_and_save evaluator result_dir images_test images_prediction
    images_post_processed;;
  mret {| images_train := images_; data_train := data_train_;
          labels_train := labels_train_; forest_ := forest;
          images_test_ := images_test;
          images_prediction_ := images_prediction;
          images_probabilities_ := images_probabilities;
          images_post_processed_ := images_post_processed |}.

(** [main(result_dir, data_atlas_dir, data_train_dir, data_test_dir)] *)
Definition main := main_with shipped.

(** ** Reading the call log *)

(** The resets, batch calls and reports, in call order. *)
Definition lifecycle (tr : list Event) : list Event :=
  omap (λ e, match e with
             | EvInitGlobal | EvPreProcessBatch _ _ _ _ _ | EvReport _ _ => Some e
             | _ => None
             end) tr.

(** The calls on the ensemble object. *)
Definition forest_calls (tr : list Event) : list Event :=
  omap (λ e, match e with
             | EvFit _ _ _ | EvPredict _ _ | EvPredictProba _ _ => Some e
             | _ => None
             end) tr.

(** The batch pre-processing calls. *)
Definition batch_calls (tr : list Event) : list Event :=
  omap (λ e, match e with
             | EvPreProcessBatch _ _ _ _ _ => Some e
             | _ => None
             end) tr.

(** The artifact methods handed to the batch calls, in call order. *)
Definition artifact_methods (tr : list Event) : list string :=
  omap (λ e, match e with
             | EvPreProcessBatch _ _ _ am _ => Some am
             | _ => None
             end) tr.

(** The run-wide record set of the evaluator: segmentation, ground
    truth and tag of every evaluation. *)
Definition evaluation_records (tr : list Event) : list (Image * Image * string) :=
  omap (λ e, match e with
             | EvEvaluate seg gt tag => Some (seg, gt, tag)
             | _ => None
             end) tr.

(** The image files written: image, path, compression. *)
Definition written (tr : list Event) : list (Image * string * bool) :=
  omap (λ e, match e with
             | EvWriteImage img path c => Some (img, path, c)
             | _ => None
             end) tr.

(** What a sequential batch yields from a given module state and
    generator states: per subject the processed subject with its two
    statistics, and the generators afterwards. *)
Fixpoint batch_outcome (params : gmap string bool)
    (norm_method artifact_method : string) (brats : bool) (a : option Atlas)
    (r : Rng * Rng) (data : list (string * SubjectFiles))
    : Result (list (BrainImage * ndarray * ndarray) * (Rng * Rng)) :=
  match data with
  | [] => Ok ([], r)
  | entry :: rest =>
      match pre_process_subject entry.1 entry.2 params norm_method
              artifact_method brats a r with
      | inl e => Err e
      | inr (img, mean, std, r') =>
          match batch_outcome params norm_method artifact_method brats a r' rest with
          | inl e => Err e
          | inr (out, r'') => Ok ((img, mean, std) :: out, r'')
          end
      end
  end.

(** The cells of a statistics report over the list [l]. *)
Definition report_cells (l : list ndarray) : Result (list (string * string * ndarray)) :=
  total ← sum_axis0 l;
  table_cells (divide total (length l)).

(** Two worlds that differ at most in the clock and in the call log. *)
Definition same_state (w1 w2 : World) : Prop :=
  py_random w1 = py_random w2 ∧ np_random w1 = np_random w2 ∧
  atlas w1 = atlas w2 ∧ evaluate_BraTS w1 = evaluate_BraTS w2 ∧
  feature_mean_intensities w1 = feature_mean_intensities w2 ∧
  feature_std_intensities w1 = feature_std_intensities w2.

(** Two runs agree up to [R] on what they return: both raise the same
    exception, or both return, with results related by [R] and the same
    state. *)
Definition agree {A} (R : A → A → Prop) (r1 r2 : Result (A * World)) : Prop :=
  match r1, r2 with
  | inl e1, inl e2 => e1 = e2
  | inr (x1, w1), inr (x2, w2) => R x1 x2 ∧ same_state w1 w2
  | _, _ => False
  end.

(** The trained model with the predictions and probabilities of the
    test subjects. *)
Definition model_and_predictions (l : Locals) : Forest * list Image * list Image :=
  (forest_ l, images_prediction_ l, images_probabilities_ l).

(** The row at which subject [k] starts in the concatenation of [arrs]. *)
Definition offset (arrs : list ndarray) (k : nat) : nat :=
  sum_list (rows <$> take k arrs).

(** A subject's feature matrix and label vector are row-aligned: both
    hold what their shapes say, they have as many rows, and a label row
    is one item. *)
Definition row_aligned (img : BrainImage) : Prop :=
  well_shaped (feature_matrix img).1 ∧ well_shaped (feature_matrix img).2 ∧
  rows (feature_matrix img).2 = rows (feature_matrix img).1 ∧
  row_width (feature_matrix img).2 = 1.

(** The artifact method a batch call should receive if both passes
    followed the configuration. *)
Definition configured_artifact_method (cfg : Settings) : Result string :=
  enabled ← dict_getitem (pre_process_params cfg) "artifact_pre";
  mret (if (enabled : bool) then chosen_artifact_method cfg else "none").

(** Every batch call in [tr] receives the configured artifact method
    when artifact pre-processing is enabled, and "none" when it is not. *)
Definition follows_artifact_setting (cfg : Settings) (tr : list Event) : Prop :=
  ∀ data params norm_method artifact_method multi_process,
    EvPreProcessBatch data params norm_method artifact_method multi_process ∈ tr →
    configured_artifact_method cfg = Ok artifact_method.

(** The paths of the normalized-image export for one subject. *)
Definition t1w_path (norm_method : string) (img : BrainImage) : string :=
  OsPath.join "./mia-result/norm images/"
    (norm_method +:+ "-norm_" +:+ id_ img +:+ "_T1w.nii.gz").

Definition t2w_path (norm_method : string) (img : BrainImage) : string :=
  OsPath.join "./mia-result/norm images/"
    (norm_method +:+ "-norm_" +:+ id_ img +:+ "_T2w.nii.gz").

(** The normalization method [main] hands to both batches. *)
Definition effective_norm_method (cfg : Settings) : Result string :=
  enabled ← dict_getitem (pre_process_params cfg) "normalization_pre";
  mret (if negb enabled then "no" else chosen_norm_method cfg).

(** The calls of the plot section. *)
Definition plot_event (e : Event) : Prop :=
  match e with
  | EvPlotSlice _ | EvKdeplot _ _ | EvSaveFig _ _ => True
  | _ => False
  end.

(** The calls of the normalized-image export, subject by subject. *)
Definition export_events (norm_method : string) (imgs : list BrainImage) : list Event :=
  mjoin ((λ img,
    [EvWriteImage (images img !!! T1w) (t1w_path norm_method img) false;
     EvWriteImage (images img !!! T1w) (t2w_path norm_method img) false]) <$> imgs).

(** The calls of the prediction loop, subject by subject. *)
Definition predict_events (f : Forest) (imgs : list BrainImage)
    (predictions : list Image) : list Event :=
  mjoin (zip_with (λ img seg,
    [EvPredict f (feature_matrix img).1;
     EvPredictProba f (feature_matrix img).1;
     EvEvaluate seg (images img !!! GroundTruth) (id_ img)]) imgs predictions).

(** The calls of the last loop, subject by subject. *)
Definition final_events (result_dir : string) (imgs : list BrainImage)
    (predictions post_processed : list Image) : list Event :=
  mjoin ((λ '(i, img),
    [EvEvaluate (post_processed !!! i) (images img !!! GroundTruth)
       (id_ img +:+ "-PP");
     EvWriteImage (predictions !!! i)
       (OsPath.join result_dir (id_ img +:+ "_SEG.mha")) true;
     EvWriteImage (post_processed !!! i)
       (OsPath.join result_dir (id_ img +:+ "_SEG-PP.mha")) true])
    <$> enumerate imgs).

(** [p] is the pair of volumes the prediction loop builds for [img]
    from the answers of the trained forest [f]. *)
Definition predicted (f : Forest) (img : BrainImage) (p : Image * Image) : Prop :=
  ∃ m pred proba,
    fitted f = Some m ∧
    forest_predict m (feature_matrix img).1 = Ok pred ∧
    forest_predict_proba m (feature_matrix img).1 = Ok proba ∧
    p = (convert (astype_uint8 pred) (image_properties img),
         convert proba (image_properties img)).

(** The files of the normalized-image export. *)
Definition export_writes (norm_method : string) (imgs : list BrainImage)
    : list (Image * string * bool) :=
  mjoin ((λ img,
    [(images img !!! T1w, t1w_path norm_method img, false);
     (images img !!! T1w, t2w_path norm_method img, false)]) <$> imgs).

(** The segmentation files of the last loop. *)
Definition result_writes (result_dir : string) (imgs : list BrainImage)
    (predictions post_processed : list Image) : list (Image * string * bool) :=
  mjoin ((λ '(i, img),
    [(predictions !!! i, OsPath.join result_dir (id_ img +:+ "_SEG.mha"), true);
     (post_processed !!! i, OsPath.join result_dir (id_ img +:+ "_SEG-PP.mha"), true)])
    <$> enumerate imgs).

(** The evaluation records of the raw predictions. *)
Definition raw_records (imgs : list BrainImage) (predictions : list Image)
    : list (Image * Image * string) :=
  zip_with (λ img seg, (seg, images img !!! GroundTruth, id_ img)) imgs predictions.

(** The evaluation records of the post-processed predictions. *)
Definition post_processed_records (imgs : list BrainImage)
    (post_processed : list Image) : list (Image * Image * string) :=
  zip_with (λ img pp, (pp, images img !!! GroundTruth, id_ img +:+ "-PP"))
    imgs post_processed.

(** The two prediction calls per test subject. *)
Definition prediction_calls (f : Forest) (imgs : list BrainImage) : list Event :=
  mjoin ((λ img, [EvPredict f (feature_matrix img).1;
                  EvPredictProba f (feature_matrix img).1]) <$> imgs).

(** What [main] overwrites before it reads it. *)
Definition entry_state (w : World) : World :=
  {| py_random := random_seed 42; np_random := np_random_seed 42; now := now w;
     atlas := None; evaluate_BraTS := evaluate_BraTS_initial;
     feature_mean_intensities := []; feature_std_intensities := [];
     trace := trace w |}.

(** Two computations that, started in the same state, agree up to [R]. *)
Definition respects {A} (R : A → A → Prop) (m1 m2 : M A) : Prop :=
  ∀ w1 w2, same_state w1 w2 → agree R (m1 w1) (m2 w2).

(** ** More ways to read a run *)

(** The normalization methods handed to the batch calls, in call order. *)
Definition norm_methods (tr : list Event) : list string :=
  omap (λ e, match e with
             | EvPreProcessBatch _ _ nm _ _ => Some nm
             | _ => None
             end) tr.

(** A statistics list a report can be computed from: it is not empty,
    its arrays have one shape, and that shape has at least two axes, of
    lengths at least 2 and 5. *)
Definition reportable (l : list ndarray) : Prop :=
  ∃ a rest d0 d1 sh,
    l = a :: rest ∧ shape a = d0 :: d1 :: sh ∧ (2 ≤ d0)%nat ∧ (5 ≤ d1)%nat ∧
    Forall (λ b, shape b = shape a) rest.

(** The row headers of a printed table, in print order. *)
Definition table_header : list (string * string) :=
  mjoin ((λ w, (λ l, (w, l +:+ tab)) <$> class_labels) <$> weighting).

(** The subscripts [w, i] of a printed table, in print order. *)
Definition table_positions : list (nat * nat) :=
  mjoin ((λ w, (λ i, (w, i)) <$> seq 0 5) <$> seq 0 2).

(** [k in img.images] *)
Definition has_image (k : BrainImageTypes) (img : BrainImage) : bool :=
  bool_decide (is_Some (images img !! k)).

(** The tags of the evaluation records and the paths of the image
    files, in the order of the log. *)
Definition evaluation_tags (tr : list Event) : list string :=
  (evaluation_records tr).*2.

Definition written_paths (tr : list Event) : list string :=
  (written tr).*1.*2.

(** [s] contains a path separator. *)
Fixpoint has_sep (s : string) : bool :=
  match s with
  | EmptyString => false
  | String c rest => bool_decide (c = "/"%char) || has_sep rest
  end.

(** [s] names one directory entry: a single path component that is
    neither empty nor one of the two special entries. *)
Definition file_name (s : string) : Prop :=
  has_sep s = false ∧ s ≠ EmptyString ∧ s ≠ "." ∧ s ≠ "..".

(** [path] is the file called [name] directly in the directory [dir]:
    [os.path.join(dir, name)] for a single file name. *)
Definition directly_in (dir path : string) : Prop :=
  ∃ name, file_name name ∧ path = OsPath.join dir name.

(** What [os.path.join] puts before a relative second argument. *)
Definition dir_prefix (a : string) : string :=
  if bool_decide (a = EmptyString) || OsPath.ends_with_sep a then a
  else a +:+ "/".

(** What the export puts before the subject id in a file name. *)
Definition export_prefix (norm_method : string) : string :=
  if OsPath.is_abs norm_method then norm_method +:+ "-norm_"
  else "./mia-result/norm images/" +:+ norm_method +:+ "-norm_".

(** Two file names per id, with a common prefix. *)
Definition paired (prefix s1 s2 : string) (ids : list string) : list string :=
  mjoin ((λ i, [prefix +:+ i +:+ s1; prefix +:+ i +:+ s2]) <$> ids).

End Pipeline.

(** ** Normalization: the z-score method *)

Module Normalization.

(** The square root of the array library, as far as it is needed here. *)
Class SquareRoot : Type := {
  sqrt : Qc → Qc;
  sqrt_0 : sqrt 0%Qc = 0%Qc;
}.

Section ZScore.

Context `{SquareRoot}.

(** The intensities of the voxels inside the mask. *)
Definition in_mask (volume mask : list Qc) : list Qc :=
  (filter (λ p, p.2 ≠ 0%Qc) (zip volume mask)).*1.

Definition total (xs : list Qc) : Qc := foldr Qcplus 0%Qc xs.

Definition mean (xs : list Qc) : Qc :=
  (total xs / Qc_of_Z (Z.of_nat (length xs)))%Qc.

Definition variance (xs : list Qc) : Qc :=
  mean ((λ x, (x - mean xs) * (x - mean xs))%Qc <$> xs).

Definition std (xs : list Qc) : Qc := sqrt (variance xs).

(** Modelled from the spec: the normalization engine is not among the
    sources. "z-score: subtract masked mean, divide by masked standard
    deviation; fails with a DegenerateInputError when the masked
    standard deviation is zero" (spec 4.1). Voxels outside the mask are
    passed through unchanged, and a new volume with the geometry of the
    input is returned. *)
Definition z_score (volume mask : Image) : Result Image :=
  let inside := in_mask (data (pixels volume)) (data (pixels mask)) in
  let mu := mean inside in
  let sigma := std inside in
  if decide (sigma = 0%Qc) then Err DegenerateInputError
  else Ok {| pixels :=
               NdArray (shape (pixels volume))
                 (zip_with (λ x m, if decide (m = 0%Qc) then x else ((x - mu) / sigma)%Qc)
                    (data (pixels volume)) (data (pixels mask)));
             properties := properties volume |}.

(** All intensities inside the mask are equal to [c]. *)
Definition constant_in_mask (volume mask : Image) (c : Qc) : Prop :=
  Forall (λ x, x = c) (in_mask (data (pixels volume)) (data (pixels mask))).

End ZScore.

End Normalization.

(** ** A small concrete run

  Collaborators simple enough to evaluate: two training subjects and
  two test subjects with a handful of voxels each. *)
Module Demo.

Definition qz (z : Z) : Qc := Qc_of_Z z.

Definition volume (xs : list Z) : Image :=
  {| pixels := NdArray [length xs] (qz <$> xs);
     properties := {| size := [length xs]; origin := [qz 0];
                      spacing := [qz 1]; direction := [qz 1] |} |}.

(** A subject "on disk": its T1w and T2w intensities and its labels. *)
Definition files : Type := list Z * list Z * list Z.

Definition stat (xs : list Z) : ndarray :=
  NdArray [2; 5] (qz <$> (mjoin (replicate 10 xs))).

Definition demo_pre_process (id : string) (f : files) (params : gmap string bool)
    (norm_method artifact_method : string) (brats : bool) (a : option unit)
    (r : Z * Z) : Result (BrainImage * ndarray * ndarray * (Z * Z)) :=
  let '(t1, t2, gt) := f in
  let noise := if bool_decide (artifact_method = "none") then 0%Z else r.2 in
  Ok ({| id_ := id;
         images := <[T1w := volume t1]> $ <[T2w := volume t2]> $
                   <[GroundTruth := volume gt]> $
                   <[BrainMask := volume ((λ _, 1%Z) <$> t1)]> ∅;
         feature_matrix :=
           (NdArray [length t1; 2]
              (mjoin ((λ '(a, b), [qz (a + noise); qz b]) <$> zip t1 t2)),
            NdArray [length gt; 1] (qz <$> gt));
         image_properties := properties (volume t1) |},
      stat [hd 0%Z t1], stat [hd 0%Z t2], (r.1, (r.2 + 1)%Z)).

Definition demo_crawler (dir : string) : list (string * files) :=
  if bool_decide (dir = "train") then
    [("a", ([10; 20; 30], [1; 2; 3], [1; 2; 1])%Z);
     ("b", ([40; 50], [4; 5], [2; 2])%Z)]
  else if bool_decide (dir = "test") then
    [("c", ([11; 21], [6; 7], [1; 2])%Z);
     ("d", ([31; 41; 51], [8; 9; 10], [2; 1; 1])%Z)]
  else [].

(** The toy model remembers the generator state it was trained from
    and the number of training rows. *)
Definition demo_fit (hp : Hyper) (X y : ndarray) (r : Z * Z)
    : Result (Z * nat * (Z * Z)) :=
  if bool_decide (rows X = length (data y)) then Ok (r.2, rows X, (r.1, (r.2 + 1)%Z))
  else Err (ValueError "inconsistent numbers of samples").

Definition demo_predict (m : Z * nat) (X : ndarray) : Result ndarray :=
  Ok (NdArray [rows X] ((λ i, qz (Z.of_nat i + m.1)) <$> seq 0 (rows X))).

Definition demo_predict_proba (m : Z * nat) (X : ndarray) : Result ndarray :=
  Ok (NdArray [rows X; 2] (mjoin ((λ _, [qz 1; qz 0]) <$> seq 0 (rows X)))).

Global Instance demo : Externals := {|
  Rng := Z;
  random_seed := λ z, z;
  np_random_seed := λ z, (z + 1000)%Z;
  Model := Z * nat;
  SubjectFiles := files;
  Atlas := unit;
  crawler_data := demo_crawler;
  read_atlas := λ _, Ok tt;
  evaluate_BraTS_initial := false;
  pre_process_subject := demo_pre_process;
  post_process_subject := λ _ seg _ _, Ok seg;
  get_masked_intensities := λ img _, pixels img;
  forest_fit := demo_fit;
  forest_predict := demo_predict;
  forest_predict_proba := demo_predict_proba;
|}.

Definition world0 : World :=
  {| py_random := 7%Z; np_random := 8%Z; now := "2020-01-01-00-00-00";
     atlas := None; evaluate_BraTS := false;
     feature_mean_intensities := [stat [99%Z]];
     feature_std_intensities := [];
     trace := [] |}.

(** Another starting point: other generator states, another time, a log
    that is not empty. *)
Definition world1 : World :=
  {| py_random := 100%Z; np_random := 200%Z; now := "2021-06-30-12-00-00";
     atlas := Some tt; evaluate_BraTS := true;
     feature_mean_intensities := [];
     feature_std_intensities := [stat [1%Z]; stat [2%Z]];
     trace := [EvInitGlobal] |}.

(** The shipped run from [world0]. *)
Definition no_locals : Locals :=
  {| images_train := []; data_train := NdArray [] []; labels_train := NdArray [] [];
     forest_ := {| hyper := {| max_features := 0; n_estimators := 0; max_depth := 0 |};
                   fitted := None |};
     images_test_ := []; images_prediction_ := []; images_probabilities_ := [];
     images_post_processed_ := [] |}.

Definition demo_locals : Locals :=
  Eval vm_compute in
    match main "out" "atlas" "train" "test" world0 with
    | inr (L, _) => L
    | inl _ => no_locals
    end.

Definition demo_final : World :=
  Eval vm_compute in
    match main "out" "atlas" "train" "test" world0 with
    | inr (_, w) => w
    | inl _ => world0
    end.

(** An integer square root, rounding up. *)
Global Instance demo_sqrt : Normalization.SquareRoot.
Proof.
  refine {| Normalization.sqrt := λ x, Qc_of_Z (Z.sqrt_up (Qceiling (this x))) |}.
  apply Qc_is_canon. reflexivity.
Defined.

(** Intensity 5 everywhere inside the mask, 7 outside. *)
Definition flat_volume : Image := volume [5; 5; 7]%Z.
Definition flat_mask : Image := volume [1; 1; 0]%Z.


(** The world after the testing report is printed once more at the end
    of the shipped run. *)
Definition reported_again : World :=
  Eval vm_compute in
    match report "testing" demo_final with
    | inr (_, w) => w
    | inl _ => demo_final
    end.

End Demo.

(** * Facts about the array library *)

Local Open Scope nat_scope.

(** ** The definitions on small inputs *)

Example join_relative :
  OsPath.join "./mia-result/norm images/" "no-norm_a_T1w.nii.gz"
  = "./mia-result/norm images/no-norm_a_T1w.nii.gz".
Proof. reflexivity. Qed.

Example join_inserts_separator : OsPath.join "out" "2020" = "out/2020".
Proof. reflexivity. Qed.

Example join_absolute : OsPath.join "out" "/tmp/x" = "/tmp/x".
Proof. reflexivity. Qed.

Example concatenate_two :
  concatenate [NdArray [2; 1] [Demo.qz 1; Demo.qz 2]; NdArray [1; 1] [Demo.qz 3]]
  = Ok (NdArray [3; 1] [Demo.qz 1; Demo.qz 2; Demo.qz 3]).
Proof. reflexivity. Qed.

Example concatenate_nothing : ∃ msg, concatenate [] = Err (ValueError msg).
Proof. by eexists. Qed.

Example concatenate_mismatch :
  ∃ msg, concatenate [NdArray [1; 2] [Demo.qz 1; Demo.qz 2]; NdArray [1; 1] [Demo.qz 3]]
         = Err (ValueError msg).
Proof. by eexists. Qed.

Example squeeze_column :
  shape (squeeze (NdArray [3; 1] [Demo.qz 1; Demo.qz 2; Demo.qz 3])) = [3].
Proof. reflexivity. Qed.

Example squeeze_single_row : shape (squeeze (NdArray [1; 1] [Demo.qz 1])) = [].
Proof. reflexivity. Qed.

Example sum_of_nothing_has_no_cells :
  sum_axis0 [] ≫= (λ a, getitem2 (divide a 0) 0 0) = Err IndexError.
Proof. reflexivity. Qed.

Example to_uint8_wraps : to_uint8 (Demo.qz 258) = Demo.qz 2.
Proof. reflexivity. Qed.


Section NpFacts.

Implicit Types (a b : ndarray) (arrs : list ndarray).

(** A run of [n] items inside the [k]-th chunk of a joined list is found
    in that chunk. *)
Lemma join_chunk {A} (ls : list (list A)) k l i n :
  ls !! k = Some l → i + n ≤ length l →
  take n (drop (sum_list (length <$> take k ls) + i) (mjoin ls)) = take n (drop i l).
Proof.
  revert k. induction ls as [|l0 ls IH]; intros k Hk Hin; [done|].
  destruct k as [|k]; simpl in *.
  - injection Hk as ->.
    rewrite drop_app_le by lia.
    apply take_app_le. rewrite length_drop. lia.
  - rewrite <-Nat.add_assoc, drop_app_add. by apply IH.
Qed.

Lemma join_item {A} (ls : list (list A)) k l i :
  ls !! k = Some l → i < length l →
  mjoin ls !! (sum_list (length <$> take k ls) + i) = l !! i.
Proof.
  revert k. induction ls as [|l0 ls IH]; intros k Hk Hi; [done|].
  destruct k as [|k]; simpl in *.
  - injection Hk as ->. by apply lookup_app_l.
  - rewrite <-Nat.add_assoc, lookup_app_r by lia.
    rewrite Nat.add_comm, Nat.add_sub. by apply IH.
Qed.

(** Every position below the total is inside exactly one chunk. *)
Lemma sum_list_locate (ns : list nat) i :
  i < sum_list ns →
  ∃ k n j, ns !! k = Some n ∧ j < n ∧ i = sum_list (take k ns) + j.
Proof.
  revert i. induction ns as [|n0 ns IH]; intros i Hi; simpl in *; [lia|].
  destruct (decide (i < n0)) as [Hlt|Hge].
  - exists 0, n0, i. by simpl.
  - destruct (IH (i - n0)) as (k & n & j & Hk & Hj & Heq); [lia|].
    exists (S k), n, j. simpl. split_and!; [done..|lia].
Qed.

Lemma concatenate_Ok arrs d :
  concatenate arrs = Ok d →
  ∃ tl0, shape d = sum_list (rows <$> arrs) :: tl0 ∧
         data d = mjoin (data <$> arrs) ∧
         Forall (λ a, ∃ n, shape a = n :: tl0) arrs.
Proof.
  unfold concatenate. destruct arrs as [|a rest]; [done|].
  destruct (shape a) as [|n tl0] eqn:Ha; [done|].
  destruct (forallb (same_tail tl0) rest) eqn:Hall; [|done].
  intros [= <-]. exists tl0. split_and!; [done..|].
  constructor; [by exists n|].
  apply Forall_forall. intros b Hb.
  rewrite forallb_forall in Hall.
  specialize (Hall b (proj1 (list_elem_of_In _ _) Hb)). unfold same_tail in Hall.
  destruct (shape b) as [|m tl1]; [done|].
  apply bool_decide_eq_true in Hall as ->. by exists m.
Qed.

Lemma well_shaped_length a n tl0 :
  well_shaped a → shape a = n :: tl0 → length (data a) = n * prod_shape tl0.
Proof. unfold well_shaped. by intros -> ->. Qed.

(** Row [j] of the [k]-th array is row [offset arrs k + j] of the
    concatenation. *)
Lemma concatenate_row arrs d k a j :
  concatenate arrs = Ok d → Forall well_shaped arrs →
  arrs !! k = Some a → j < rows a →
  row d (offset arrs k + j) = row a j.
Proof.
  intros (tl0 & Hsh & Hdata & Htl)%concatenate_Ok Hws Hk Hj.
  assert (Hlen : ∀ b, b ∈ arrs → length (data b) = rows b * prod_shape tl0).
  { intros b Hb. rewrite Forall_forall in Htl, Hws.
    destruct (Htl b Hb) as [n Hn]. unfold rows. rewrite Hn. simpl.
    by apply well_shaped_length; [apply Hws|]. }
  assert (Ha : row_width a = prod_shape tl0).
  { rewrite Forall_forall in Htl.
    destruct (Htl a) as [n Hn]; [by eapply list_elem_of_lookup_2|].
    unfold row_width. by rewrite Hn. }
  unfold row. rewrite Ha. unfold row_width. rewrite Hsh, Hdata. simpl.
  assert (Hoff : offset arrs k * prod_shape tl0
                 = sum_list (length <$> take k (data <$> arrs))).
  { unfold offset. rewrite <-fmap_take.
    assert (Hsub : ∀ b, b ∈ take k arrs → b ∈ arrs).
    { intros b Hb. by eapply subseteq_take. }
    induction (take k arrs) as [|b l IH]; simpl; [done|].
    rewrite Nat.mul_add_distr_r, Hlen by (apply Hsub; left).
    f_equal. apply IH. intros c Hc. apply Hsub. by right. }
  rewrite Nat.mul_add_distr_r, Hoff.
  apply join_chunk; [by rewrite list_lookup_fmap, Hk|].
  rewrite (Hlen a) by (by eapply list_elem_of_lookup_2).
  nia.
Qed.

(** With one item per row, item [j] of the [k]-th array is item
    [offset arrs k + j] of the concatenation, squeezed or not. *)
Lemma concatenate_item arrs d k a j :
  concatenate arrs = Ok d → Forall well_shaped arrs →
  Forall (λ b, row_width b = 1) arrs →
  arrs !! k = Some a → j < rows a →
  item (squeeze d) (offset arrs k + j) = item a j.
Proof.
  intros (tl0 & Hsh & Hdata & Htl)%concatenate_Ok Hws Hone Hk Hj.
  assert (Hlen : ∀ b, b ∈ arrs → length (data b) = rows b).
  { intros b Hb. rewrite Forall_forall in Htl, Hws, Hone.
    destruct (Htl b Hb) as [n Hn]. specialize (Hone b Hb).
    unfold rows, row_width in *. rewrite Hn in *. simpl in *.
    rewrite (well_shaped_length b n tl0) by auto. lia. }
  unfold item, squeeze. simpl. rewrite Hdata.
  assert (Hoff : offset arrs k = sum_list (length <$> take k (data <$> arrs))).
  { unfold offset. rewrite <-fmap_take.
    assert (Hsub : ∀ b, b ∈ take k arrs → b ∈ arrs).
    { intros b Hb. by eapply subseteq_take. }
    induction (take k arrs) as [|b l IH]; simpl; [done|].
    rewrite Hlen by (apply Hsub; left).
    f_equal. apply IH. intros c Hc. apply Hsub. by right. }
  rewrite Hoff.
  apply join_item; [by rewrite list_lookup_fmap, Hk|].
  rewrite (Hlen a) by (by eapply list_elem_of_lookup_2). done.
Qed.

(** Every row of the concatenation comes from some array. *)
Lemma concatenate_locate arrs d i :
  concatenate arrs = Ok d → i < rows d →
  ∃ k a j, arrs !! k = Some a ∧ j < rows a ∧ i = offset arrs k + j.
Proof.
  intros (tl0 & Hsh & _ & _)%concatenate_Ok Hi.
  unfold rows at 1 in Hi. rewrite Hsh in Hi. simpl in Hi.
  destruct (sum_list_locate _ _ Hi) as (k & n & j & Hk & Hj & ->).
  apply list_lookup_fmap_Some_1 in Hk as (a & -> & Hk).
  exists k, a, j. split_and!; [done..|].
  unfold offset. by rewrite fmap_take.
Qed.

End NpFacts.

(** * Facts about the pipeline *)

Section PipelineFacts.

Context `{Externals}.

Implicit Types (w : World) (evs : list Event) (img : BrainImage).

(** ** Inverting a successful computation *)

Lemma bind_Ok {A B} (m : M A) (k : A → M B) w r w' :
  (m ≫= k) w = Ok (r, w') → ∃ x w1, m w = Ok (x, w1) ∧ k x w1 = Ok (r, w').
Proof.
  unfold mbind, M_bind. destruct (m w) as [e|[x w1]]; [done|]. eauto.
Qed.

Lemma lift_Ok {A} (x : Result A) w a w' :
  lift x w = Ok (a, w') → x = Ok a ∧ w' = w.
Proof. unfold lift. destruct x; [done|]. by intros [= -> ->]. Qed.

Lemma mret_Ok {A} (x : A) w a w' :
  mret (M := M) x w = Ok (a, w') → a = x ∧ w' = w.
Proof. by intros [= -> ->]. Qed.

Lemma gets_Ok {A} (f : World → A) w a w' :
  gets f w = Ok (a, w') → a = f w ∧ w' = w.
Proof. by intros [= -> ->]. Qed.

Lemma emit_Ok e w u w' : emit e w = Ok (u, w') → w' = add_trace [e] w.
Proof. by intros [= _ ->]. Qed.

Lemma add_trace_nil w : add_trace [] w = w.
Proof. destruct w. unfold add_trace. simpl. by rewrite app_nil_r. Qed.

Lemma add_trace_app evs1 evs2 w :
  add_trace evs2 (add_trace evs1 w) = add_trace (evs1 ++ evs2) w.
Proof. unfold add_trace. simpl. by rewrite app_assoc. Qed.

Lemma list_getitem_Ok {A} (l : list A) i x :
  list_getitem l i = Ok x → l !! i = Some x.
Proof. unfold list_getitem. destruct (l !! i); [|done]. by intros [= ->]. Qed.

Lemma image_of_Ok img k x : image_of img k = Ok x → images img !! k = Some x.
Proof. unfold image_of. destruct (images img !! k); [|done]. by intros [= ->]. Qed.

Lemma image_of_total img k x : image_of img k = Ok x → images img !!! k = x.
Proof. intros ?%image_of_Ok. by apply lookup_total_correct. Qed.

(** A loop whose rounds only log calls logs the calls of its rounds, in
    order. *)
Lemma for_each_Ok {A B} (body : A → M B) (E : A → B → list Event)
    (Ψ : A → B → Prop) l :
  (∀ x w y w', x ∈ l → body x w = Ok (y, w') → w' = add_trace (E x y) w ∧ Ψ x y) →
  ∀ w ys w', for_each body l w = Ok (ys, w') →
    w' = add_trace (mjoin (zip_with E l ys)) w ∧ Forall2 Ψ l ys.
Proof.
  induction l as [|x l IH]; intros Hbody w ys w' Hrun; simpl in Hrun.
  - apply mret_Ok in Hrun as [-> ->]. simpl. by rewrite add_trace_nil.
  - apply bind_Ok in Hrun as (y & w1 & Hx & Hrun).
    apply bind_Ok in Hrun as (ys' & w2 & Hl & Hrun).
    apply mret_Ok in Hrun as [-> ->].
    apply Hbody in Hx as [-> HΨ]; [|by left].
    apply IH in Hl as [-> HΨs]; [|intros ???? Hin; apply Hbody; by right].
    simpl. rewrite add_trace_app. by split; [|constructor].
Qed.

Lemma for_each_unit_Ok {A} (body : A → M unit) (E : A → list Event)
    (Ψ : A → Prop) l :
  (∀ x w y w', x ∈ l → body x w = Ok (y, w') → w' = add_trace (E x) w ∧ Ψ x) →
  ∀ w ys w', for_each body l w = Ok (ys, w') →
    w' = add_trace (mjoin (E <$> l)) w ∧ Forall Ψ l.
Proof.
  induction l as [|x l IH]; intros Hbody w ys w' Hrun; simpl in Hrun.
  - apply mret_Ok in Hrun as [-> ->]. simpl. by rewrite add_trace_nil.
  - apply bind_Ok in Hrun as (y & w1 & Hx & Hrun).
    apply bind_Ok in Hrun as (ys' & w2 & Hl & Hrun).
    apply mret_Ok in Hrun as [-> ->].
    apply Hbody in Hx as [-> HΨ]; [|by left].
    apply IH in Hl as [-> HΨs]; [|intros ???? Hin; apply Hbody; by right].
    simpl. rewrite add_trace_app. by split; [|constructor].
Qed.

Lemma elem_of_enumerate {A} (l : list A) i x :
  (i, x) ∈ enumerate l → l !! i = Some x.
Proof.
  unfold enumerate. intros (j & Hj)%list_elem_of_lookup_1.
  apply lookup_zip_with_Some in Hj as (i' & x' & [= -> ->] & Hseq & Hl).
  apply lookup_seq in Hseq as [-> _]. done.
Qed.

Lemma enumerate_snd {A} (l : list A) : (enumerate l).*2 = l.
Proof. unfold enumerate. apply snd_zip. by rewrite length_seq. Qed.

Lemma for_each_pure_Ok {A B} (body : A → M B) (Ψ : A → B → Prop) l :
  (∀ x w y w', body x w = Ok (y, w') → w' = w ∧ Ψ x y) →
  ∀ w ys w', for_each body l w = Ok (ys, w') → w' = w ∧ Forall2 Ψ l ys.
Proof.
  intros Hbody. induction l as [|x l IH]; intros w ys w' Hrun; simpl in Hrun.
  - by apply mret_Ok in Hrun as [-> ->].
  - apply bind_Ok in Hrun as (y & w1 & Hx & Hrun).
    apply bind_Ok in Hrun as (ys' & w2 & Hl & Hrun).
    apply mret_Ok in Hrun as [-> ->].
    apply Hbody in Hx as [-> HΨ]. apply IH in Hl as [-> HΨs].
    by split; [|constructor].
Qed.

Local Ltac inv_step :=
  match goal with
  | H : mbind _ _ _ = inr _ |- _ => apply bind_Ok in H as (? & ? & ? & H)
  | H : lift _ _ = inr _ |- _ => apply lift_Ok in H as [H ->]
  | H : mret _ _ = inr _ |- _ => apply mret_Ok in H as [? ->]
  | H : gets _ _ = inr _ |- _ => apply gets_Ok in H as [? ->]
  | H : emit _ _ = inr _ |- _ => apply emit_Ok in H as ->
  | H : evaluate _ _ _ _ _ = inr _ |- _ => apply emit_Ok in H as ->
  end.

Local Ltac inv_run := repeat inv_step; simplify_eq.

(** ** The blocks of [main] *)

Lemma plots_Ok cfg nm imgs w u w' :
  plots cfg nm imgs w = Ok (u, w') →
  ∃ evs, w' = add_trace evs w ∧ Forall plot_event evs.
Proof.
  unfold plots, when. intros Hrun.
  destruct (plot_slice cfg), (plot_hist cfg); simpl in Hrun; inv_run;
    rewrite ?add_trace_app; try (eexists; split; [reflexivity|]; by repeat constructor).
  all: exists []; by rewrite add_trace_nil.
Qed.

Lemma save_normalized_Ok nm imgs w u w' :
  save_normalized nm imgs w = Ok (u, w') →
  w' = add_trace (export_events nm imgs) w ∧
  Forall (λ img, is_Some (images img !! T1w)) imgs.
Proof.
  unfold save_normalized. intros Hrun. inv_run.
  match goal with Hl : for_each _ _ _ = _ |- _ => rename Hl into Hloop end.
  eapply (for_each_unit_Ok _
    (λ p, [EvWriteImage (images p.2 !!! T1w) (t1w_path nm p.2) false;
           EvWriteImage (images p.2 !!! T1w) (t2w_path nm p.2) false])
    (λ p, is_Some (images p.2 !! T1w))) in Hloop as [-> HT1].
  - split.
    + f_equal. unfold export_events. f_equal.
      rewrite <-(enumerate_snd imgs) at 2. by rewrite <-list_fmap_compose.
    + rewrite <-(enumerate_snd imgs). by apply Forall_fmap.
  - intros [i img] w1 y w2 Hin%elem_of_enumerate Hbody. simpl.
    unfold list_getitem in Hbody. rewrite Hin in Hbody. inv_run.
    repeat match goal with
           | Hx : image_of _ _ = _ |- _ =>
               pose proof (image_of_Ok _ _ _ Hx); apply image_of_total in Hx
           end.
    simplify_eq. rewrite add_trace_app. split; [done|].
    by match goal with Hs : _ !! T1w = Some _ |- _ => rewrite Hs end.
Qed.

Lemma report_Ok phase w u w' :
  report phase w = Ok (u, w') →
  ∃ c1 c2,
    report_cells (feature_mean_intensities w) = Ok c1 ∧
    report_cells (feature_std_intensities w) = Ok c2 ∧
    w' = add_trace [EvReport (mean_title phase) c1; EvReport (std_title phase) c2] w.
Proof.
  unfold report, print_table. intros Hrun. inv_run.
  do 2 eexists. split_and!.
  - unfold report_cells.
    match goal with Hs : sum_axis0 (feature_mean_intensities w) = _ |- _ => rewrite Hs end.
    simpl. eassumption.
  - unfold report_cells.
    match goal with Hs : sum_axis0 (feature_std_intensities w) = _ |- _ => rewrite Hs end.
    simpl. eassumption.
  - by rewrite add_trace_app.
Qed.

Lemma predict_Ok f X w p w' :
  predict f X w = Ok (p, w') →
  w' = add_trace [EvPredict f X] w ∧
  ∃ m, fitted f = Some m ∧ forest_predict m X = Ok p.
Proof.
  unfold predict. intros Hrun. inv_run.
  destruct (fitted f) as [m|]; inv_run. eauto.
Qed.

Lemma predict_proba_Ok f X w p w' :
  predict_proba f X w = Ok (p, w') →
  w' = add_trace [EvPredictProba f X] w ∧
  ∃ m, fitted f = Some m ∧ forest_predict_proba m X = Ok p.
Proof.
  unfold predict_proba. intros Hrun. inv_run.
  destruct (fitted f) as [m|]; inv_run. eauto.
Qed.

Lemma predict_all_Ok f ev imgs w res w' :
  predict_all f ev imgs w = Ok (res, w') →
  w' = add_trace (predict_events f imgs res.*1) w ∧
  Forall2 (λ img p, predicted f img p ∧ is_Some (images img !! GroundTruth)) imgs res.
Proof.
  unfold predict_all. intros Hrun.
  eapply (for_each_Ok _
    (λ img (p : Image * Image),
       [EvPredict f (feature_matrix img).1;
        EvPredictProba f (feature_matrix img).1;
        EvEvaluate p.1 (images img !!! GroundTruth) (id_ img)])) in Hrun
    as [-> Hall]; [split; [|exact Hall]|].
  - f_equal. unfold predict_events. f_equal.
    clear. revert res. induction imgs as [|img imgs IH]; intros [|p res]; simpl;
      [done..|by rewrite IH].
  - clear. intros img w p w' _ Hbody. inv_run.
    repeat match goal with
           | Hp : predict _ _ _ = _ |- _ => apply predict_Ok in Hp as (-> & ? & ? & ?)
           | Hp : predict_proba _ _ _ = _ |- _ =>
               apply predict_proba_Ok in Hp as (-> & ? & ? & ?)
           | Hx : image_of _ _ = _ |- _ =>
               pose proof (image_of_Ok _ _ _ Hx); apply image_of_total in Hx
           end.
    simplify_eq. rewrite !add_trace_app. simpl. split; [done|].
    split; [|by eexists]. by repeat eexists.
Qed.

Lemma post_process_batch_Ok imgs segs probs params mp w pps w' :
  post_process_batch imgs segs probs params mp w = Ok (pps, w') →
  w' = add_trace [EvPostProcessBatch imgs segs probs params mp] w ∧
  Forall2 (λ x pp, post_process_subject x.1.1 x.1.2 x.2 params = Ok pp)
    (zip (zip imgs segs) probs) pps.
Proof.
  unfold post_process_batch. intros Hrun. inv_run.
  match goal with Hl : for_each _ _ _ = _ |- _ =>
    eapply (for_each_pure_Ok _
      (λ x pp, post_process_subject x.1.1 x.1.2 x.2 params = Ok pp)) in Hl
      as [-> Hall] end; [done|].
  clear. intros [[img seg] prob] w pp w' Hbody. by inv_run.
Qed.

Lemma evaluate_and_save_Ok ev rd imgs segs pps w u w' :
  evaluate_and_save ev rd imgs segs pps w = Ok (u, w') →
  w' = add_trace (final_events rd imgs segs pps) w ∧
  Forall (λ p, is_Some (pps !! p.1) ∧ is_Some (segs !! p.1) ∧
               is_Some (images p.2 !! GroundTruth)) (enumerate imgs).
Proof.
  unfold evaluate_and_save. intros Hrun. inv_run.
  match goal with Hl : for_each _ _ _ = _ |- _ => rename Hl into Hloop end.
  eapply (for_each_unit_Ok _
    (λ '(i, img),
       [EvEvaluate (pps !!! i) (images img !!! GroundTruth) (id_ img +:+ "-PP");
        EvWriteImage (segs !!! i) (OsPath.join rd (id_ img +:+ "_SEG.mha")) true;
        EvWriteImage (pps !!! i) (OsPath.join rd (id_ img +:+ "_SEG-PP.mha")) true]))
    in Hloop as [-> Hall]; [split; [done|exact Hall]|].
  intros [i img] w1 y w2 Hin%elem_of_enumerate Hbody. simpl.
  unfold list_getitem in Hbody. rewrite Hin in Hbody. inv_run.
  repeat match goal with
         | Hx : image_of _ _ = _ |- _ =>
             pose proof (image_of_Ok _ _ _ Hx); apply image_of_total in Hx
         | Hx : match ?l !! ?i with _ => _ end = inr _ |- _ =>
             let E := fresh "E" in
             destruct (l !! i) eqn:E; [|done];
             pose proof (list_lookup_total_correct _ _ _ E)
         end.
  simplify_eq. rewrite !add_trace_app. simpl. split; [done|].
  split_and!; by eexists.
Qed.

(** A sequential batch is [batch_outcome] read off the world. *)
Lemma for_each_pre_process params nm am data w :
  for_each (pre_process params nm am) data w =
  match batch_outcome params nm am (evaluate_BraTS w) (atlas w)
          (py_random w, np_random w) data with
  | inl e => Err e
  | inr (out, r) =>
      Ok (out.*1.*1,
          {| py_random := r.1; np_random := r.2; now := now w;
             atlas := atlas w; evaluate_BraTS := evaluate_BraTS w;
             feature_mean_intensities := feature_mean_intensities w ++ out.*1.*2;
             feature_std_intensities := feature_std_intensities w ++ out.*2;
             trace := trace w |})
  end.
Proof.
  revert w. induction data as [|entry data IH]; intros w; simpl.
  - destruct w. simpl. by rewrite !app_nil_r.
  - unfold mbind, M_bind, pre_process at 1.
    destruct (pre_process_subject _ _ _ _ _ _ _ _) as [e|[[[img mean] std] [r1 r2]]];
      [done|].
    rewrite IH. simpl.
    destruct (batch_outcome _ _ _ _ _ _ _) as [e|[out r']]; [done|].
    simpl. by rewrite <-!app_assoc.
Qed.

Lemma pre_process_batch_Ok data params nm am mp w imgs w' :
  pre_process_batch data params nm am mp w = Ok (imgs, w') →
  ∃ out r,
    batch_outcome params nm am (evaluate_BraTS w) (atlas w)
      (py_random w, np_random w) data = Ok (out, r) ∧
    imgs = out.*1.*1 ∧
    w' = {| py_random := r.1; np_random := r.2; now := now w;
            atlas := atlas w; evaluate_BraTS := evaluate_BraTS w;
            feature_mean_intensities := feature_mean_intensities w ++ out.*1.*2;
            feature_std_intensities := feature_std_intensities w ++ out.*2;
            trace := trace w ++ [EvPreProcessBatch data params nm am mp] |}.
Proof.
  unfold pre_process_batch. intros Hrun. inv_run.
  match goal with Hl : for_each _ _ _ = _ |- _ => rename Hl into Hloop end.
  rewrite for_each_pre_process in Hloop. simpl in Hloop.
  destruct (batch_outcome _ _ _ _ _ _ _) as [e|[out r]]; [done|].
  injection Hloop as <- <-. by exists out, r.
Qed.

Lemma fit_Ok f X y w f' w' :
  fit f X y w = Ok (f', w') →
  ∃ m r,
    forest_fit (hyper f) X y (py_random w, np_random w) = Ok (m, r) ∧
    f' = {| hyper := hyper f; fitted := Some m |} ∧
    w' = {| py_random := r.1; np_random := r.2; now := now w;
            atlas := atlas w; evaluate_BraTS := evaluate_BraTS w;
            feature_mean_intensities := feature_mean_intensities w;
            feature_std_intensities := feature_std_intensities w;
            trace := trace w ++ [EvFit (hyper f) X y] |}.
Proof.
  unfold fit. intros Hrun. inv_run.
  match goal with Ht : train _ _ _ _ = _ |- _ => rename Ht into Htrain end.
  unfold train in Htrain. simpl in Htrain.
  destruct (forest_fit _ _ _ _) as [e|[m [r1 r2]]]; [done|].
  injection Htrain as <- <-. by exists m, (r1, r2).
Qed.

Lemma modify_Ok (f : World → World) w u w' : modify f w = Ok (u, w') → w' = f w.
Proof. by intros [= _ ->]. Qed.

Lemma load_atlas_images_Ok dir w u w' :
  load_atlas_images dir w = Ok (u, w') →
  ∃ a, read_atlas dir = Ok a ∧
       w' = {| py_random := py_random w; np_random := np_random w; now := now w;
               atlas := Some a; evaluate_BraTS := evaluate_BraTS w;
               feature_mean_intensities := feature_mean_intensities w;
               feature_std_intensities := feature_std_intensities w;
               trace := trace w |}.
Proof.
  unfold load_atlas_images. intros Hrun. inv_run.
  match goal with Hm : modify _ _ = _ |- _ => apply modify_Ok in Hm as -> end.
  eauto.
Qed.

Local Ltac norm_world :=
  cbn [py_random np_random now atlas evaluate_BraTS feature_mean_intensities
       feature_std_intensities trace add_trace fst snd] in *.

(** ** A successful run of [main], step by step *)

Lemma main_with_Ok cfg rd ad td sd w0 L w1 :
  main_with cfg rd ad td sd w0 = Ok (L, w1) →
  ∃ a nm am train_out r1 lbl img0 nf m r2 test_out r3 plot_evs c1 c2 c3 c4,
    let params := pre_process_params cfg in
    let params' := <["training" := false]> params in
    let hp := {| max_features := nf; n_estimators := 20; max_depth := 25 |} in
    let rdir := OsPath.join rd (now w0) in
    let pp_params := <["simple_post" := true]> (∅ : gmap string bool) in
    read_atlas ad = Ok a ∧
    effective_norm_method cfg = Ok nm ∧
    configured_artifact_method cfg = Ok am ∧
    batch_outcome params nm "none" (debug_BraTS cfg) (Some a)
      (random_seed 42, np_random_seed 42) (crawler_data td) = Ok (train_out, r1) ∧
    images_train L = train_out.*1.*1 ∧
    Forall (λ img, is_Some (images img !! T1w)) (images_train L) ∧
    report_cells train_out.*1.*2 = Ok c1 ∧
    report_cells train_out.*2 = Ok c2 ∧
    concatenate ((λ img, (feature_matrix img).1) <$> images_train L)
      = Ok (data_train L) ∧
    concatenate ((λ img, (feature_matrix img).2) <$> images_train L) = Ok lbl ∧
    labels_train L = squeeze lbl ∧
    images_train L !! 0 = Some img0 ∧
    shape (feature_matrix img0).1 !! 1 = Some nf ∧
    forest_fit hp (data_train L) (labels_train L) r1 = Ok (m, r2) ∧
    forest_ L = {| hyper := hp; fitted := Some m |} ∧
    batch_outcome params' nm am evaluate_BraTS_initial (Some a) r2
      (crawler_data sd) = Ok (test_out, r3) ∧
    images_test_ L = test_out.*1.*1 ∧
    report_cells test_out.*1.*2 = Ok c3 ∧
    report_cells test_out.*2 = Ok c4 ∧
    Forall2 (λ img p, predicted (forest_ L) img p ∧
                      is_Some (images img !! GroundTruth))
      (images_test_ L) (zip (images_prediction_ L) (images_probabilities_ L)) ∧
    length (images_probabilities_ L) = length (images_prediction_ L) ∧
    Forall2 (λ x pp, post_process_subject x.1.1 x.1.2 x.2 pp_params = Ok pp)
      (zip (zip (images_test_ L) (images_prediction_ L)) (images_probabilities_ L))
      (images_post_processed_ L) ∧
    Forall plot_event plot_evs ∧
    trace w1 =
      trace w0 ++
      [EvInitGlobal; EvPreProcessBatch (crawler_data td) params nm "none" false] ++
      plot_evs ++
      export_events nm (images_train L) ++
      [EvReport (mean_title "training") c1; EvReport (std_title "training") c2;
       EvInitGlobal;
       EvFit hp (data_train L) (labels_train L);
       EvMakedirs rdir; EvInitEvaluator rdir;
       EvPreProcessBatch (crawler_data sd) params' nm am false;
       EvReport (mean_title "testing") c3; EvReport (std_title "testing") c4] ++
      predict_events (forest_ L) (images_test_ L) (images_prediction_ L) ++
      [EvPostProcessBatch (images_test_ L) (images_prediction_ L)
         (images_probabilities_ L) pp_params true] ++
      final_events rdir (images_test_ L) (images_prediction_ L)
        (images_post_processed_ L) ∧
    feature_mean_intensities w1 = test_out.*1.*2 ∧
    feature_std_intensities w1 = test_out.*2.
Proof.
  unfold main_with. intros Hrun.
  apply bind_Ok in Hrun as (? & ? & ->%modify_Ok & Hrun).
  norm_world.
  apply bind_Ok in Hrun as (? & ? & ->%modify_Ok & Hrun).
  norm_world.
  apply bind_Ok in Hrun as (? & ? & (a & Ha & ->)%load_atlas_images_Ok & Hrun).
  norm_world.
  apply bind_Ok in Hrun as (? & ? & ->%modify_Ok & Hrun).
  norm_world.
  apply bind_Ok in Hrun as (? & ? & ->%modify_Ok & Hrun).
  norm_world.
  apply bind_Ok in Hrun as (npre & ? & [Hnpre ->]%lift_Ok & Hrun).
  norm_world.
  apply bind_Ok in Hrun as (apre & ? & [Hapre ->]%lift_Ok & Hrun).
  norm_world.
  apply bind_Ok in Hrun as
    (? & ? & (train_out & r1 & Htrain & -> & ->)%pre_process_batch_Ok & Hrun).
  norm_world.
  apply bind_Ok in Hrun as (? & ? & (plot_evs & -> & Hplot)%plots_Ok & Hrun).
  norm_world.
  apply bind_Ok in Hrun as (? & ? & [-> HT1]%save_normalized_Ok & Hrun).
  norm_world.
  apply bind_Ok in Hrun as (? & ? & (c1 & c2 & Hc1 & Hc2 & ->)%report_Ok & Hrun).
  norm_world.
  apply bind_Ok in Hrun as (? & ? & ->%modify_Ok & Hrun).
  norm_world.
  apply bind_Ok in Hrun as (D & ? & [HD ->]%lift_Ok & Hrun).
  norm_world.
  apply bind_Ok in Hrun as (lbl & ? & [Hlbl ->]%lift_Ok & Hrun).
  norm_world.
  apply bind_Ok in Hrun as (img0 & ? & [Himg0%list_getitem_Ok ->]%lift_Ok & Hrun).
  norm_world.
  apply bind_Ok in Hrun as (nf & ? & [Hnf%list_getitem_Ok ->]%lift_Ok & Hrun).
  norm_world.
  apply bind_Ok in Hrun as (f & ? & (m & r2 & Hfit & -> & ->)%fit_Ok & Hrun).
  norm_world.
  apply bind_Ok in Hrun as (t & ? & [-> ->]%gets_Ok & Hrun).
  norm_world.
  apply bind_Ok in Hrun as (? & ? & ->%emit_Ok & Hrun).
  norm_world.
  apply bind_Ok in Hrun as (ev & ? & Hev & Hrun).
  norm_world.
  unfold init_evaluator in Hev.
  apply bind_Ok in Hev as (? & ? & ->%emit_Ok & [-> ->]%mret_Ok).
  norm_world.
  apply bind_Ok in Hrun as
    (? & ? & (test_out & r3 & Htest & -> & ->)%pre_process_batch_Ok & Hrun).
  norm_world.
  apply bind_Ok in Hrun as (? & ? & (c3 & c4 & Hc3 & Hc4 & ->)%report_Ok & Hrun).
  norm_world.
  apply bind_Ok in Hrun as (res & ? & [-> Hres]%predict_all_Ok & Hrun).
  norm_world.
  apply bind_Ok in Hrun as (pps & ? & [-> Hpps]%post_process_batch_Ok & Hrun).
  norm_world.
  apply bind_Ok in Hrun as (? & ? & [-> Hfinal]%evaluate_and_save_Ok & Hrun).
  norm_world.
  apply mret_Ok in Hrun as [-> ->]. norm_world.
  cbn [images_train data_train labels_train forest_ images_test_
       images_prediction_ images_probabilities_ images_post_processed_
       hyper fitted app].
  exists a, (if negb npre then "no" else chosen_norm_method cfg),
    (if negb apre then "none" else chosen_artifact_method cfg),
    train_out, r1, lbl, img0, nf, m, r2, test_out, r3, plot_evs, c1, c2, c3, c4.
  cbv zeta. split_and!; try done.
  - unfold effective_norm_method.
    apply (f_equal (λ r, r ≫= λ b : bool,
      mret (if negb b then "no" else chosen_norm_method cfg))) in Hnpre.
    exact Hnpre.
  - unfold configured_artifact_method.
    apply (f_equal (λ r, r ≫= λ b : bool,
      mret (if b then chosen_artifact_method cfg else "none"))) in Hapre.
    by destruct apre.
  - by destruct r1.
  - by destruct r2.
  - by rewrite zip_fst_snd.
  - by rewrite !length_fmap.
  - by rewrite <-!app_assoc.
Qed.

(** ** Reading the call log of a run *)

Lemma omap_join {A B} (f : A → option B) (ls : list (list A)) :
  omap f (mjoin ls) = mjoin (omap f <$> ls).
Proof.
  induction ls as [|l ls IH]; simpl; [done|]. by rewrite omap_app, IH.
Qed.

Lemma join_fmap_nil {A B} (l : list A) : mjoin ((λ _, @nil B) <$> l) = [].
Proof. by induction l. Qed.

Lemma omap_plot_events {B} (f : Event → option B) evs :
  (∀ e, plot_event e → f e = None) → Forall plot_event evs → omap f evs = [].
Proof.
  intros Hf. induction 1 as [|e evs He _ IH]; simpl; [done|].
  by rewrite (Hf e He).
Qed.

Lemma omap_export_events {B} (f : Event → option B) nm imgs :
  omap f (export_events nm imgs) =
  mjoin ((λ img,
    omap f [EvWriteImage (images img !!! T1w) (t1w_path nm img) false;
            EvWriteImage (images img !!! T1w) (t2w_path nm img) false]) <$> imgs).
Proof. unfold export_events. by rewrite omap_join, <-list_fmap_compose. Qed.

Lemma omap_predict_events {B} (f : Event → option B) fo imgs segs :
  omap f (predict_events fo imgs segs) =
  mjoin (zip_with (λ img seg,
    omap f [EvPredict fo (feature_matrix img).1;
            EvPredictProba fo (feature_matrix img).1;
            EvEvaluate seg (images img !!! GroundTruth) (id_ img)]) imgs segs).
Proof.
  unfold predict_events. rewrite omap_join. f_equal.
  revert segs. induction imgs as [|img imgs IH]; intros [|seg segs]; simpl;
    [done..|by rewrite IH].
Qed.

Lemma omap_final_events {B} (f : Event → option B) rd imgs segs pps :
  omap f (final_events rd imgs segs pps) =
  mjoin ((λ '(i, img),
    omap f [EvEvaluate (pps !!! i) (images img !!! GroundTruth) (id_ img +:+ "-PP");
            EvWriteImage (segs !!! i) (OsPath.join rd (id_ img +:+ "_SEG.mha")) true;
            EvWriteImage (pps !!! i) (OsPath.join rd (id_ img +:+ "_SEG-PP.mha")) true])
    <$> enumerate imgs).
Proof.
  unfold final_events. rewrite omap_join, <-list_fmap_compose.
  f_equal. apply list_fmap_ext. by intros _ [i img] _.
Qed.

Lemma join_zip_with_nil {A B C} (l : list A) (k : list B) :
  mjoin (zip_with (λ _ _, @nil C) l k) = [].
Proof. revert k. induction l as [|x l IH]; intros [|y k]; simpl; auto. Qed.

Lemma join_fmap_enumerate_nil {A C} (l : list A) :
  mjoin ((λ '(_, _), @nil C) <$> enumerate l) = [].
Proof.
  unfold enumerate. generalize (seq 0 (length l)). intros ns.
  revert ns. induction l as [|x l IH]; intros [|n ns]; simpl; auto.
Qed.

Lemma zip_with_ignore_r {A B C} (F : A → C) (l : list A) (k : list B) :
  length k = length l → zip_with (λ x _, F x) l k = F <$> l.
Proof.
  revert k. induction l as [|x l IH]; intros [|y k] Hlen; simpl in *;
    [done..|]. f_equal. apply IH. lia.
Qed.

Lemma join_zip_with_singleton {A B C} (F : A → B → C) (l : list A) (k : list B) :
  mjoin (zip_with (λ x y, [F x y]) l k) = zip_with F l k.
Proof.
  revert k. induction l as [|x l IH]; intros [|y k]; simpl; [done..|].
  f_equal. apply IH.
Qed.

Lemma join_fmap_singleton {A C} (F : A → C) (l : list A) :
  mjoin ((λ x, [F x]) <$> l) = F <$> l.
Proof. induction l as [|x l IH]; simpl; [done|]. by f_equal. Qed.

Lemma join_fmap_pair_singleton {A B C} (G : A → B → C) (l : list (A * B)) :
  mjoin ((λ '(i, x), [G i x]) <$> l) = (λ '(i, x), G i x) <$> l.
Proof. induction l as [|[i x] l IH]; simpl; [done|]. by f_equal. Qed.

Lemma string_app_ne (s t : string) : t ≠ EmptyString → s ≠ s +:+ t.
Proof.
  intros Ht. induction s as [|c s IH].
  - intros Heq. apply Ht. symmetry. exact Heq.
  - intros Heq. apply IH. by injection Heq.
Qed.

(** Reading a second list by position along [enumerate] is zipping. *)
Lemma fmap_enumerate_lookup_total {A B C} `{!Inhabited B}
    (F : A → B → C) (l : list A) (k : list B) :
  length k = length l →
  (λ '(i, x), F x (k !!! i)) <$> enumerate l = zip_with F l k.
Proof.
  intros Hlen. apply list_eq. intros i.
  rewrite list_lookup_fmap. unfold enumerate. rewrite !lookup_zip_with.
  destruct (l !! i) as [x|] eqn:Hl.
  - pose proof (lookup_lt_Some _ _ _ Hl) as Hi.
    rewrite lookup_seq_lt by done. simpl.
    destruct (k !! i) as [y|] eqn:Hk.
    + simpl. by rewrite (list_lookup_total_correct _ _ _ Hk).
    + apply lookup_ge_None in Hk. lia.
  - apply lookup_ge_None in Hl.
    rewrite lookup_seq_ge by done. done.
Qed.

Local Ltac open_run Hrun :=
  apply main_with_Ok in Hrun as
    (a & nm & am & train_out & r1 & lbl & img0 & nf & m & r2 & test_out & r3 &
     plot_evs & c1 & c2 & c3 & c4 &
     Hatlas & Hnm & Ham & Htrain & Himgs & HT1 & Hc1 & Hc2 & HD & Hlbl & Hlabels &
     Himg0 & Hnf & Hfit & Hforest & Htest & Himgs_test & Hc3 & Hc4 & Hpred &
     Hlen & Hpp & Hplot & Htrace & Hmeans & Hstds);
  cbv zeta in *.

Local Ltac read_log :=
  repeat progress (
    rewrite ?omap_app, ?omap_export_events, ?omap_predict_events,
      ?omap_final_events;
    cbn [omap list_omap app];
    rewrite ?omap_plot_events
      by first [assumption | intros [] ?; simpl in *; done];
    rewrite ?join_fmap_nil, ?join_zip_with_nil, ?join_fmap_enumerate_nil;
    cbn [app]).

(** ** The properties of a run *)

(** C1. The statistics lists are reset before the training batch, and
    again after the training report and before the testing batch: the
    training report is computed from exactly the statistics of the
    training subjects and the testing report from exactly those of the
    test subjects, whatever the lists held when [main] was entered. *)
Theorem C1_statistics_reset_between_passes cfg rd ad td sd w0 L w1 :
  main_with cfg rd ad td sd w0 = Ok (L, w1) →
  ∃ new a nm am train_out r1 r2 test_out r3 c1 c2 c3 c4,
    trace w1 = trace w0 ++ new ∧
    batch_outcome (pre_process_params cfg) nm "none" (debug_BraTS cfg) (Some a)
      (random_seed 42, np_random_seed 42) (crawler_data td) = Ok (train_out, r1) ∧
    images_train L = train_out.*1.*1 ∧
    batch_outcome (<["training" := false]> (pre_process_params cfg)) nm am
      evaluate_BraTS_initial (Some a) r2 (crawler_data sd) = Ok (test_out, r3) ∧
    images_test_ L = test_out.*1.*1 ∧
    report_cells train_out.*1.*2 = Ok c1 ∧
    report_cells train_out.*2 = Ok c2 ∧
    report_cells test_out.*1.*2 = Ok c3 ∧
    report_cells test_out.*2 = Ok c4 ∧
    lifecycle new =
      [EvInitGlobal;
       EvPreProcessBatch (crawler_data td) (pre_process_params cfg) nm "none" false;
       EvReport (mean_title "training") c1;
       EvReport (std_title "training") c2;
       EvInitGlobal;
       EvPreProcessBatch (crawler_data sd)
         (<["training" := false]> (pre_process_params cfg)) nm am false;
       EvReport (mean_title "testing") c3;
       EvReport (std_title "testing") c4] ∧
    feature_mean_intensities w1 = test_out.*1.*2 ∧
    feature_std_intensities w1 = test_out.*2.
Proof.
  intros Hrun. open_run Hrun.
  eexists _, a, nm, am, train_out, r1, r2, test_out, r3, c1, c2, c3, c4.
  split; [exact Htrace|]. split_and!; try done.
  unfold lifecycle. by read_log.
Qed.

(** C2. The forest is fit exactly once, on the feature matrices and
    label vectors of the training subjects concatenated in subject
    order; after that the only calls on it are [predict] and
    [predict_proba], once each per test subject in subject order, all of
    them on the forest as that one [fit] left it. *)
Theorem C2_forest_fit_once cfg rd ad td sd w0 L w1 :
  main_with cfg rd ad td sd w0 = Ok (L, w1) →
  ∃ new lbl m r r',
    trace w1 = trace w0 ++ new ∧
    concatenate ((λ img, (feature_matrix img).1) <$> images_train L)
      = Ok (data_train L) ∧
    concatenate ((λ img, (feature_matrix img).2) <$> images_train L) = Ok lbl ∧
    labels_train L = squeeze lbl ∧
    forest_fit (hyper (forest_ L)) (data_train L) (labels_train L) r = Ok (m, r') ∧
    fitted (forest_ L) = Some m ∧
    forest_calls new =
      EvFit (hyper (forest_ L)) (data_train L) (labels_train L)
      :: prediction_calls (forest_ L) (images_test_ L).
Proof.
  intros Hrun. open_run Hrun.
  eexists _, lbl, m, r1, r2. split; [exact Htrace|].
  rewrite Hforest. cbn [hyper fitted]. split_and!; try done.
  unfold forest_calls. read_log. f_equal.
  rewrite app_nil_r. unfold prediction_calls. f_equal.
  apply zip_with_ignore_r.
  apply Forall2_length in Hpred. rewrite length_zip_with in Hpred. lia.
Qed.

(** The two batch calls of a run, whatever the settings: the training
    batch is handed the literal "none", the testing batch the method
    computed from the settings. *)
Lemma run_batch_calls cfg rd ad td sd w0 L w1 :
  main_with cfg rd ad td sd w0 = Ok (L, w1) →
  ∃ new nm (enabled : bool),
    trace w1 = trace w0 ++ new ∧
    pre_process_params cfg !! "artifact_pre" = Some enabled ∧
    batch_calls new =
      [EvPreProcessBatch (crawler_data td) (pre_process_params cfg) nm "none" false;
       EvPreProcessBatch (crawler_data sd)
         (<["training" := false]> (pre_process_params cfg)) nm
         (if enabled then chosen_artifact_method cfg else "none") false].
Proof.
  intros Hrun. open_run Hrun.
  unfold configured_artifact_method, dict_getitem in Ham.
  destruct (pre_process_params cfg !! "artifact_pre") as [enabled|] eqn:Hen;
    [|done].
  injection Ham as <-.
  eexists _, nm, enabled. split; [exact Htrace|]. split; [done|].
  unfold batch_calls. by read_log.
Qed.

Lemma elem_of_batch_calls (e : Event) (tr : list Event) :
  match e with EvPreProcessBatch _ _ _ _ _ => True | _ => False end →
  e ∈ tr → e ∈ batch_calls tr.
Proof.
  intros He Hin. unfold batch_calls. apply list_elem_of_omap.
  exists e. split; [done|]. by destruct e.
Qed.

(** C3. In every run of [main] the artifact method handed to batch
    pre-processing is, in the training pass and in the testing pass
    alike, the one the settings prescribe: the configured method when
    artifact pre-processing is enabled and "none" when it is not. The
    training call names "none" literally; the settings [main] is
    written with have artifact pre-processing disabled, so this is
    what they prescribe. *)
Theorem C3_artifact_method_follows_setting rd ad td sd w0 L w1 :
  main rd ad td sd w0 = Ok (L, w1) →
  ∃ new nm am,
    trace w1 = trace w0 ++ new ∧
    configured_artifact_method shipped = Ok am ∧
    batch_calls new =
      [EvPreProcessBatch (crawler_data td) (pre_process_params shipped) nm am false;
       EvPreProcessBatch (crawler_data sd)
         (<["training" := false]> (pre_process_params shipped)) nm am false] ∧
    follows_artifact_setting shipped new.
Proof.
  intros (new & nm & enabled & Htrace & Hen & Hcalls)%run_batch_calls.
  assert (enabled = false) as -> by (vm_compute in Hen; congruence).
  assert (Ham : configured_artifact_method shipped = Ok "none")
    by (vm_compute; reflexivity).
  exists new, nm, "none". split; [done|]. split; [done|]. split; [done|].
  intros data params norm_method artifact_method multi_process Hin.
  apply elem_of_batch_calls in Hin; [|done]. rewrite Hcalls in Hin.
  apply elem_of_cons in Hin as [[= _ _ _ -> _]|Hin]; [done|].
  apply elem_of_cons in Hin as [[= _ _ _ -> _]|Hin]; [done|].
  by apply elem_of_nil in Hin.
Qed.

(** C4. The training feature matrix and label vector are the
    concatenations, over the same subject list in the same order, of
    the subjects' feature matrices and label vectors. When every
    subject is row-aligned, row [j] of subject [k] is row
    [offset k + j] of the feature matrix and its label is item
    [offset k + j] of the label vector, and every row of the feature
    matrix is such a row. *)
Theorem C4_training_rows_aligned cfg rd ad td sd w0 L w1 :
  main_with cfg rd ad td sd w0 = Ok (L, w1) →
  Forall row_aligned (images_train L) →
  let Xs := (λ img, (feature_matrix img).1) <$> images_train L in
  let ys := (λ img, (feature_matrix img).2) <$> images_train L in
  concatenate Xs = Ok (data_train L) ∧
  (∃ lbl, concatenate ys = Ok lbl ∧ labels_train L = squeeze lbl) ∧
  (∀ k img j,
     images_train L !! k = Some img → j < rows (feature_matrix img).1 →
     row (data_train L) (offset Xs k + j) = row (feature_matrix img).1 j ∧
     item (labels_train L) (offset Xs k + j) = item (feature_matrix img).2 j) ∧
  (∀ i, i < rows (data_train L) →
     ∃ k img j, images_train L !! k = Some img ∧
                j < rows (feature_matrix img).1 ∧ i = offset Xs k + j).
Proof.
  intros Hrun Haligned Xs ys. open_run Hrun. clear Htrace.
  assert (Hoff : ∀ k, offset ys k = offset Xs k).
  { intros k. unfold offset, Xs, ys. rewrite <-!fmap_take.
    assert (Hsub : Forall row_aligned (take k (images_train L))).
    { by apply Forall_take. }
    induction Hsub as [|img l (_ & _ & Hrows & _) _ IH]; csimpl; [done|].
    by rewrite Hrows, IH. }
  split; [done|]. split; [by exists lbl|]. split.
  - intros k img j Hk Hj. split.
    + apply (concatenate_row Xs); [done| |by unfold Xs; rewrite list_lookup_fmap, Hk|done].
      unfold Xs. apply Forall_fmap. eapply Forall_impl; [exact Haligned|].
      by intros ? (? & _).
    + rewrite Hlabels, <-Hoff.
      apply (concatenate_item ys); [done| | |by unfold ys; rewrite list_lookup_fmap, Hk|].
      * unfold ys. apply Forall_fmap. eapply Forall_impl; [exact Haligned|].
        by intros ? (_ & ? & _).
      * unfold ys. apply Forall_fmap. eapply Forall_impl; [exact Haligned|].
        by intros ? (_ & _ & _ & ?).
      * rewrite Forall_forall in Haligned.
        destruct (Haligned img) as (_ & _ & -> & _); [|done].
        by eapply list_elem_of_lookup_2.
  - intros i Hi.
    destruct (concatenate_locate Xs _ i HD Hi) as (k & X & j & Hk & Hj & ->).
    unfold Xs in Hk. apply list_lookup_fmap_Some_1 in Hk as (img & -> & Hk).
    by exists k, img, j.
Qed.

(** C6. Every test subject is evaluated exactly twice, and the record
    set holds nothing else: first the raw predictions, tagged with the
    subject identifiers, then the post-processed predictions, tagged
    with the identifiers suffixed "-PP"; the two tags of a subject
    differ. *)
Theorem C6_two_evaluations_per_subject cfg rd ad td sd w0 L w1 :
  main_with cfg rd ad td sd w0 = Ok (L, w1) →
  ∃ new,
    trace w1 = trace w0 ++ new ∧
    length (images_prediction_ L) = length (images_test_ L) ∧
    length (images_post_processed_ L) = length (images_test_ L) ∧
    Forall (λ img, is_Some (images img !! GroundTruth)) (images_test_ L) ∧
    Forall2 (λ x pp,
        post_process_subject x.1.1 x.1.2 x.2 (<["simple_post" := true]> ∅) = Ok pp)
      (zip (zip (images_test_ L) (images_prediction_ L)) (images_probabilities_ L))
      (images_post_processed_ L) ∧
    evaluation_records new =
      raw_records (images_test_ L) (images_prediction_ L) ++
      post_processed_records (images_test_ L) (images_post_processed_ L) ∧
    length (evaluation_records new) = 2 * length (images_test_ L) ∧
    ∀ img, id_ img ≠ id_ img +:+ "-PP".
Proof.
  intros Hrun. open_run Hrun.
  assert (Hsegs : length (images_prediction_ L) = length (images_test_ L)).
  { apply Forall2_length in Hpred. rewrite length_zip_with in Hpred. lia. }
  assert (Hpps : length (images_post_processed_ L) = length (images_test_ L)).
  { apply Forall2_length in Hpp. rewrite !length_zip_with in Hpp. lia. }
  eexists. split; [exact Htrace|].
  match goal with
  | |- context [evaluation_records ?new] =>
      assert (Hrecords : evaluation_records new
                = raw_records (images_test_ L) (images_prediction_ L) ++
                  post_processed_records (images_test_ L) (images_post_processed_ L))
  end.
  { unfold evaluation_records. read_log. f_equal.
    - apply join_zip_with_singleton.
    - rewrite (join_fmap_pair_singleton
        (λ i img, (images_post_processed_ L !!! i, images img !!! GroundTruth,
                   id_ img +:+ "-PP"))).
      by apply (fmap_enumerate_lookup_total
        (λ img pp, (pp, images img !!! GroundTruth, id_ img +:+ "-PP"))). }
  split_and!; try done.
  - eapply Forall2_Forall_l; [exact Hpred|].
    apply Forall_true. by intros ? ? [_ ?].
  - rewrite Hrecords. unfold raw_records, post_processed_records.
    rewrite length_app, !length_zip_with. lia.
  - intros img. by apply string_app_ne.
Qed.

(** C7. For every test subject the label volume and the probability
    volume are the flat answers of the trained forest on that subject's
    features (the labels cast to 8 bits), given that subject's own
    image properties. *)
Theorem C7_volumes_use_subject_geometry cfg rd ad td sd w0 L w1 :
  main_with cfg rd ad td sd w0 = Ok (L, w1) →
  Forall2 (λ img seg,
      properties seg = image_properties img ∧
      ∃ m pred, fitted (forest_ L) = Some m ∧
                forest_predict m (feature_matrix img).1 = Ok pred ∧
                pixels seg = astype_uint8 pred)
    (images_test_ L) (images_prediction_ L) ∧
  Forall2 (λ img prob,
      properties prob = image_properties img ∧
      ∃ m proba, fitted (forest_ L) = Some m ∧
                 forest_predict_proba m (feature_matrix img).1 = Ok proba ∧
                 pixels prob = proba)
    (images_test_ L) (images_probabilities_ L).
Proof.
  intros Hrun. open_run Hrun. clear Htrace. split.
  - rewrite <-(fst_zip (images_prediction_ L) (images_probabilities_ L)) by lia.
    apply Forall2_fmap_r. eapply Forall2_impl; [exact Hpred|].
    intros img [seg prob] [(m' & pred & proba & ? & ? & ? & [= -> ->]) _].
    simpl. split; [done|]. by eexists _, _.
  - rewrite <-(snd_zip (images_prediction_ L) (images_probabilities_ L)) by lia.
    apply Forall2_fmap_r. eapply Forall2_impl; [exact Hpred|].
    intros img [seg prob] [(m' & pred & proba & ? & ? & ? & [= -> ->]) _].
    simpl. split; [done|]. by eexists _, _.
Qed.

(** C10. The normalized-image export writes, for every training
    subject, the subject's T1w volume to the T1w-named path and the
    same T1w volume to the T2w-named path, and nothing else; the only
    other image files of a run are the segmentations of the last loop. *)
Theorem C10_export_writes_T1w_twice cfg rd ad td sd w0 L w1 :
  main_with cfg rd ad td sd w0 = Ok (L, w1) →
  ∃ new nm,
    trace w1 = trace w0 ++ new ∧
    effective_norm_method cfg = Ok nm ∧
    Forall (λ img, is_Some (images img !! T1w)) (images_train L) ∧
    written new =
      export_writes nm (images_train L) ++
      result_writes (OsPath.join rd (now w0)) (images_test_ L)
        (images_prediction_ L) (images_post_processed_ L) ∧
    ∀ x path c, (x, path, c) ∈ export_writes nm (images_train L) →
      ∃ img, img ∈ images_train L ∧ images img !! T1w = Some x ∧ c = false ∧
             (path = t1w_path nm img ∨ path = t2w_path nm img).
Proof.
  intros Hrun. open_run Hrun.
  eexists _, nm. split; [exact Htrace|]. split_and!; try done.
  - unfold written. read_log. done.
  - intros x path c Hin. unfold export_writes in Hin.
    apply list_elem_of_join in Hin as (l & Hin & Hl).
    apply list_elem_of_fmap in Hl as (img & -> & Himg).
    rewrite Forall_forall in HT1. destruct (HT1 img Himg) as [t1 Ht1].
    rewrite (lookup_total_correct _ _ _ Ht1) in Hin.
    exists img.
    apply elem_of_cons in Hin as [[= -> -> ->]|Hin]; [by eauto|].
    apply elem_of_cons in Hin as [[= -> -> ->]|Hin]; [by eauto|].
    by apply elem_of_nil in Hin.
Qed.

(** ** Runs from the same state *)

Lemma same_state_refl w : same_state w w.
Proof. by repeat split. Qed.

Lemma same_state_add_trace evs1 evs2 w1 w2 :
  same_state w1 w2 → same_state (add_trace evs1 w1) (add_trace evs2 w2).
Proof. by intros (? & ? & ? & ? & ? & ?). Qed.

Lemma respects_bind {A B} (R : A → A → Prop) (S : B → B → Prop)
    (m1 m2 : M A) (k1 k2 : A → M B) :
  respects R m1 m2 →
  (∀ x1 x2, R x1 x2 → respects S (k1 x1) (k2 x2)) →
  respects S (m1 ≫= k1) (m2 ≫= k2).
Proof.
  intros Hm Hk w1 w2 Hw. specialize (Hm w1 w2 Hw).
  unfold mbind, M_bind, agree in *.
  destruct (m1 w1) as [e1|[x1 w1']], (m2 w2) as [e2|[x2 w2']]; try done.
  destruct Hm as [HR Hw']. by apply Hk.
Qed.

Lemma respects_ret {A} (R : A → A → Prop) x1 x2 :
  R x1 x2 → respects R (mret x1) (mret x2).
Proof. by intros HR w1 w2 Hw. Qed.

Lemma respects_lift {A} (r : Result A) : respects (=) (lift r) (lift r).
Proof. intros w1 w2 Hw. unfold lift, agree. by destruct r. Qed.

Lemma respects_emit e1 e2 : respects (=) (emit e1) (emit e2).
Proof. intros w1 w2 Hw. split; [done|]. by apply same_state_add_trace. Qed.

Lemma respects_evaluate ev1 ev2 seg1 seg2 gt1 gt2 tag1 tag2 :
  respects (=) (evaluate ev1 seg1 gt1 tag1) (evaluate ev2 seg2 gt2 tag2).
Proof. apply respects_emit. Qed.

Lemma respects_gets_now : respects (λ _ _, True) (gets now) (gets now).
Proof. by intros w1 w2 Hw. Qed.

Lemma respects_gets {A} (f : World → A) :
  (∀ w1 w2, same_state w1 w2 → f w1 = f w2) →
  respects (=) (gets f) (gets f).
Proof. intros Hf w1 w2 Hw. split; [by apply Hf|done]. Qed.

Lemma respects_modify (f : World → World) :
  (∀ w1 w2, same_state w1 w2 → same_state (f w1) (f w2)) →
  respects (=) (modify f) (modify f).
Proof. intros Hf w1 w2 Hw. split; [done|by apply Hf]. Qed.

Lemma respects_for_each {A B} (b1 b2 : A → M B) l :
  (∀ x, respects (=) (b1 x) (b2 x)) →
  respects (=) (for_each b1 l) (for_each b2 l).
Proof.
  intros Hb. induction l as [|x l IH]; simpl.
  - by apply respects_ret.
  - eapply respects_bind; [apply Hb|]. intros y ? <-.
    eapply respects_bind; [apply IH|]. intros ys ? <-.
    by apply respects_ret.
Qed.

Lemma respects_pre_process params nm am entry :
  respects (=) (pre_process params nm am entry) (pre_process params nm am entry).
Proof.
  intros w1 w2 (Hpy & Hnp & Hatlas & Hbrats & Hmeans & Hstds).
  unfold pre_process, agree. rewrite Hpy, Hnp, Hatlas, Hbrats, Hmeans, Hstds.
  destruct (pre_process_subject _ _ _ _ _ _ _ _) as [e|[[[img mean] std] [r1' r2']]];
    [done|].
  by repeat split.
Qed.

Lemma respects_train f X y : respects (=) (train f X y) (train f X y).
Proof.
  intros w1 w2 (Hpy & Hnp & Hatlas & Hbrats & Hmeans & Hstds).
  unfold train, agree. rewrite Hpy, Hnp.
  destruct (forest_fit _ _ _ _) as [e|[m [r1' r2']]]; [done|].
  by repeat split.
Qed.

Local Ltac respects_auto :=
  cbv beta zeta;
  first
    [ apply respects_lift
    | apply respects_emit
    | apply respects_evaluate
    | apply respects_gets_now
    | apply respects_pre_process
    | apply respects_train
    | apply respects_gets; by intros ? ? (? & ? & ? & ? & ? & ?)
    | apply respects_modify; by intros ? ? (? & ? & ? & ? & ? & ?)
    | apply respects_ret; done
    | apply respects_for_each; intros ?; respects_auto
    | eapply respects_bind;
        [respects_auto | intros ? ? ?; simplify_eq; respects_auto]
    | match goal with
      | |- respects _ (match ?x with _ => _ end) _ => destruct x; respects_auto
      end ].

Lemma respects_pre_process_batch data params nm am mp :
  respects (=) (pre_process_batch data params nm am mp)
    (pre_process_batch data params nm am mp).
Proof. unfold pre_process_batch. respects_auto. Qed.

Lemma respects_plots cfg nm imgs :
  respects (=) (plots cfg nm imgs) (plots cfg nm imgs).
Proof. unfold plots, when. respects_auto. Qed.

Lemma respects_save_normalized nm imgs :
  respects (=) (save_normalized nm imgs) (save_normalized nm imgs).
Proof. unfold save_normalized. respects_auto. Qed.

Lemma respects_report phase : respects (=) (report phase) (report phase).
Proof. unfold report, print_table. respects_auto. Qed.

Lemma respects_fit f X y : respects (=) (fit f X y) (fit f X y).
Proof. unfold fit. respects_auto. Qed.

Lemma respects_init_evaluator rd1 rd2 :
  respects (λ _ _, True) (init_evaluator rd1) (init_evaluator rd2).
Proof. unfold init_evaluator. respects_auto. Qed.

Lemma respects_predict_all f ev1 ev2 imgs :
  respects (=) (predict_all f ev1 imgs) (predict_all f ev2 imgs).
Proof. unfold predict_all, predict, predict_proba. respects_auto. Qed.

Lemma respects_post_process_batch imgs segs probs params mp :
  respects (=) (post_process_batch imgs segs probs params mp)
    (post_process_batch imgs segs probs params mp).
Proof. unfold post_process_batch. respects_auto. Qed.

Lemma respects_evaluate_and_save ev1 ev2 rd1 rd2 imgs segs pps :
  respects (=) (evaluate_and_save ev1 rd1 imgs segs pps)
    (evaluate_and_save ev2 rd2 imgs segs pps).
Proof. unfold evaluate_and_save. respects_auto. Qed.

Local Ltac respects_main :=
  cbv beta zeta;
  first
    [ apply respects_pre_process_batch
    | apply respects_plots
    | apply respects_save_normalized
    | apply respects_report
    | apply respects_fit
    | apply respects_init_evaluator
    | apply respects_predict_all
    | apply respects_post_process_batch
    | apply respects_evaluate_and_save
    | apply respects_lift
    | apply respects_emit
    | apply respects_gets_now
    | apply respects_modify; by intros ? ? (? & ? & ? & ? & ? & ?)
    | apply respects_ret; done
    | eapply respects_bind;
        [respects_main | intros ? ? ?; simplify_eq; respects_main] ].

(** From the same state, two runs of [main] agree on every local
    variable it returns, whatever the clock says. *)
Lemma main_with_respects cfg rd ad td sd :
  respects (=) (main_with cfg rd ad td sd) (main_with cfg rd ad td sd).
Proof. unfold main_with, load_atlas_images. respects_main. Qed.

Lemma main_with_entry_state cfg rd ad td sd w :
  main_with cfg rd ad td sd w = main_with cfg rd ad td sd (entry_state w).
Proof.
  unfold main_with.
  unfold mbind at 1 2 3 4. unfold M_bind at 1 2 3 4.
  cbn [seed_random seed_np_random modify].
  unfold load_atlas_images, mbind, M_bind, lift at 1 3.
  destruct (read_atlas ad) as [e|a]; reflexivity.
Qed.

(** C5. The generators are seeded with 42 before anything draws from
    them, so two runs on the same inputs do not depend on the generator
    states, the module state, the clock or the log they start from:
    both raise the same exception, or both return the same trained
    model and the same label and probability volumes for every test
    subject. *)
Theorem C5_seeded_runs_agree cfg rd ad td sd (w1 w2 : World) :
  agree (λ L1 L2, model_and_predictions L1 = model_and_predictions L2)
    (main_with cfg rd ad td sd w1) (main_with cfg rd ad td sd w2).
Proof.
  rewrite (main_with_entry_state _ _ _ _ _ w1), (main_with_entry_state _ _ _ _ _ w2).
  assert (Hentry : same_state (entry_state w1) (entry_state w2)) by by repeat split.
  pose proof (main_with_respects cfg rd ad td sd _ _ Hentry) as Hagree.
  unfold agree in *.
  destruct (main_with cfg rd ad td sd (entry_state w1)) as [e1|[L1 w1']],
    (main_with cfg rd ad td sd (entry_state w2)) as [e2|[L2 w2']]; try done.
  by destruct Hagree as [-> ?].
Qed.

(** ** Running forward *)

Lemma bind_eq_Ok {A B} (m : M A) (k : A → M B) w x w' :
  m w = Ok (x, w') → (m ≫= k) w = k x w'.
Proof. unfold mbind, M_bind. by intros ->. Qed.

Lemma bind_eq_Err {A B} (m : M A) (k : A → M B) w e :
  m w = Err e → (m ≫= k) w = Err e.
Proof. unfold mbind, M_bind. by intros ->. Qed.

Lemma batch_outcome_length params nm am brats a r data out r' :
  batch_outcome params nm am brats a r data = Ok (out, r') →
  length out = length data.
Proof.
  revert r out. induction data as [|entry data IH]; intros r out Hrun; simpl in Hrun.
  - by injection Hrun as <- _.
  - destruct (pre_process_subject _ _ _ _ _ _ _ _) as [e|[[[img mean] std] r1]];
      [done|].
    destruct (batch_outcome _ _ _ _ _ _ _) as [e|[out' r2]] eqn:Hrest; [done|].
    injection Hrun as <- <-. simpl. f_equal. by eapply IH.
Qed.

Lemma report_cells_nil : report_cells [] = Err IndexError.
Proof. reflexivity. Qed.

(** ** More properties of a run *)

(** X1. A run that completes had at least one training subject and at
    least one test subject, and pre-processed every subject the two
    crawlers listed: with an empty list either report divides by zero
    and has no cell to print. *)
Theorem X1_completed_run_has_subjects cfg rd ad td sd w0 L w1 :
  main_with cfg rd ad td sd w0 = Ok (L, w1) →
  crawler_data td ≠ [] ∧ crawler_data sd ≠ [] ∧
  length (images_train L) = length (crawler_data td) ∧
  length (images_test_ L) = length (crawler_data sd).
Proof.
  intros Hrun. open_run Hrun. clear Htrace.
  apply batch_outcome_length in Htrain, Htest.
  rewrite Himgs, Himgs_test, !length_fmap, Htrain, Htest.
  split_and!; try done.
  - intros Hnil. rewrite Hnil in Htrain. destruct train_out; [|done].
    by change (report_cells [] = Ok c1) in Hc1.
  - intros Hnil. rewrite Hnil in Htest. destruct test_out; [|done].
    by change (report_cells [] = Ok c3) in Hc3.
Qed.

Lemma load_atlas_images_eq dir a w :
  read_atlas dir = Ok a →
  load_atlas_images dir w =
  Ok (tt, {| py_random := py_random w; np_random := np_random w; now := now w;
             atlas := Some a; evaluate_BraTS := evaluate_BraTS w;
             feature_mean_intensities := feature_mean_intensities w;
             feature_std_intensities := feature_std_intensities w;
             trace := trace w |}).
Proof. intros Ha. unfold load_atlas_images, mbind, M_bind, lift. by rewrite Ha. Qed.

Lemma lift_dict_getitem_eq {A} (d : gmap string A) k x w :
  d !! k = Some x → lift (dict_getitem d k) w = Ok (x, w).
Proof. intros Hk. unfold lift, dict_getitem. by rewrite Hk. Qed.

Lemma plots_nil cfg nm w :
  plots cfg nm [] w =
  if plot_slice cfg || plot_hist cfg then Err IndexError else Ok (tt, w).
Proof. unfold plots, when. by destruct (plot_slice cfg), (plot_hist cfg). Qed.

Lemma report_nil phase w :
  feature_mean_intensities w = [] → feature_std_intensities w = [] →
  report phase w = Err IndexError.
Proof.
  intros Hmeans Hstds. unfold report.
  erewrite bind_eq_Ok by reflexivity. rewrite Hmeans.
  erewrite bind_eq_Ok by reflexivity.
  erewrite bind_eq_Ok by reflexivity. rewrite Hstds.
  erewrite bind_eq_Ok by reflexivity.
  by apply bind_eq_Err.
Qed.

(** X2. With no training subject [main] raises IndexError, whatever
    the switches: the plots read [images[0]], and without plots the
    training report has no cell to print. Nothing is fit. *)
Theorem X2_no_training_subject_raises cfg rd ad td sd w a :
  crawler_data td = [] →
  read_atlas ad = Ok a →
  is_Some (pre_process_params cfg !! "normalization_pre") →
  is_Some (pre_process_params cfg !! "artifact_pre") →
  main_with cfg rd ad td sd w = Err IndexError.
Proof.
  intros Hcrawl Hatlas [npre Hnpre] [apre Hapre]. unfold main_with.
  erewrite bind_eq_Ok by reflexivity.
  erewrite bind_eq_Ok by reflexivity.
  erewrite bind_eq_Ok by (by apply load_atlas_images_eq).
  erewrite bind_eq_Ok by reflexivity.
  erewrite bind_eq_Ok by reflexivity.
  erewrite bind_eq_Ok by (by apply lift_dict_getitem_eq).
  erewrite bind_eq_Ok by (by apply lift_dict_getitem_eq).
  rewrite Hcrawl.
  erewrite bind_eq_Ok by reflexivity.
  norm_world.
  destruct (plot_slice cfg || plot_hist cfg) eqn:Hplots.
  - apply bind_eq_Err. by rewrite plots_nil, Hplots.
  - erewrite bind_eq_Ok by (by rewrite plots_nil, Hplots).
    erewrite bind_eq_Ok by reflexivity.
    apply bind_eq_Err. by apply report_nil.
Qed.

Lemma getitem2_eq (a : ndarray) (w i d0 d1 : nat) (sh : list nat) :
  shape a = d0 :: d1 :: sh → w < d0 → i < d1 →
  getitem2 a w i =
  Ok (NdArray sh (take (prod_shape sh) (drop ((w * d1 + i) * prod_shape sh) (data a)))).
Proof.
  intros Hsh Hw Hi. unfold getitem2. rewrite Hsh.
  by rewrite !bool_decide_eq_true_2.
Qed.

Lemma getitem2_Ok (a : ndarray) (w i : nat) (x : ndarray) :
  getitem2 a w i = Ok x →
  ∃ d0 d1 sh, shape a = d0 :: d1 :: sh ∧ w < d0 ∧ i < d1.
Proof.
  unfold getitem2. destruct (shape a) as [|d0 [|d1 sh]]; [done..|].
  destruct (bool_decide (w < d0)) eqn:Hw; [|done].
  destruct (bool_decide (i < d1)) eqn:Hi; [|done].
  apply bool_decide_eq_true in Hw, Hi. intros _. by exists d0, d1, sh.
Qed.

Lemma table_cells_Ok (a : ndarray) (cells : list (string * string * ndarray)) :
  table_cells a = Ok cells →
  (∃ d0 d1 sh, shape a = d0 :: d1 :: sh ∧ 2 ≤ d0 ∧ 5 ≤ d1) ∧
  cells.*1 = table_header ∧
  Forall2 (λ p cell, getitem2 a p.1 p.2 = Ok cell.2)
    table_positions cells.
Proof.
  unfold table_cells. cbn -[getitem2]. intros Hcells.
  repeat match type of Hcells with
         | context [getitem2 a ?w ?i] =>
             let E := fresh "E" in
             destruct (getitem2 a w i) eqn:E; cbn -[getitem2] in Hcells; [done|]
         end.
  injection Hcells as <-. split_and!.
  - match goal with
    | E : getitem2 a 1 4 = _ |- _ =>
        apply getitem2_Ok in E as (d0 & d1 & sh & Hsh & ? & ?)
    end.
    exists d0, d1, sh. split; [done|lia].
  - reflexivity.
  - repeat constructor; assumption.
Qed.

Lemma table_cells_returns (a : ndarray) (d0 d1 : nat) (sh : list nat) :
  shape a = d0 :: d1 :: sh → 2 ≤ d0 → 5 ≤ d1 →
  ∃ cells, table_cells a = Ok cells.
Proof.
  intros Hsh H0 H1. unfold table_cells. cbn -[getitem2].
  rewrite !(getitem2_eq a _ _ d0 d1 sh) by (done || lia).
  cbn. by eexists.
Qed.

Lemma sum_axis0_Ok (l : list ndarray) (t : ndarray) :
  sum_axis0 l = Ok t →
  match l with
  | [] => shape t = []
  | a :: rest => shape t = shape a ∧ Forall (λ b, shape b = shape a) rest
  end.
Proof.
  unfold sum_axis0. destruct l as [|a rest]; [by intros [= <-]|].
  destruct (forallb _ rest) eqn:Hall; [|done]. intros [= <-]. split; [done|].
  rewrite forallb_forall in Hall. apply Forall_forall. intros b Hb.
  eapply bool_decide_eq_true_1. apply Hall. by apply list_elem_of_In.
Qed.

Lemma sum_axis0_returns (a : ndarray) (rest : list ndarray) :
  Forall (λ b, shape b = shape a) rest →
  ∃ t, sum_axis0 (a :: rest) = Ok t ∧ shape t = shape a.
Proof.
  intros Hall. unfold sum_axis0.
  assert (forallb (λ b, bool_decide (shape b = shape a)) rest = true) as ->.
  { apply forallb_forall. intros b Hb%list_elem_of_In.
    apply bool_decide_eq_true_2. rewrite Forall_forall in Hall. by apply Hall. }
  by eexists.
Qed.

Lemma report_cells_returns_iff (l : list ndarray) :
  (∃ cells, report_cells l = Ok cells) ↔ reportable l.
Proof.
  unfold report_cells, reportable. split.
  - intros [cells Hcells].
    destruct (sum_axis0 l) as [e|t] eqn:Ht; [done|]. simpl in Hcells.
    apply table_cells_Ok in Hcells as [(d0 & d1 & sh & Hsh & ? & ?) _].
    simpl in Hsh. apply sum_axis0_Ok in Ht.
    destruct l as [|a rest]; [by rewrite Ht in Hsh|].
    destruct Ht as [Ht Hall]. rewrite Ht in Hsh. by exists a, rest, d0, d1, sh.
  - intros (a & rest & d0 & d1 & sh & -> & Hsh & ? & ? & Hall).
    destruct (sum_axis0_returns a rest Hall) as (t & -> & Ht). simpl.
    apply (table_cells_returns _ d0 d1 sh); [|done..].
    simpl. by rewrite Ht.
Qed.

(** X3. A statistics report returns exactly when both statistics lists
    are not empty, hold arrays of one shape each, and that shape has at
    least two axes of lengths at least 2 and 5; otherwise it raises. *)
Theorem X3_report_returns_iff phase w :
  (∃ u w', report phase w = Ok (u, w')) ↔
  reportable (feature_mean_intensities w) ∧ reportable (feature_std_intensities w).
Proof.
  split.
  - intros (u & w' & Hrun). apply report_Ok in Hrun as (c1 & c2 & Hc1 & Hc2 & _).
    split; apply report_cells_returns_iff; by eexists.
  - intros [[c1 Hc1]%report_cells_returns_iff [c2 Hc2]%report_cells_returns_iff].
    unfold report_cells in Hc1, Hc2.
    destruct (sum_axis0 (feature_mean_intensities w)) as [e|t1] eqn:Ht1; [done|].
    destruct (sum_axis0 (feature_std_intensities w)) as [e|t2] eqn:Ht2; [done|].
    simpl in Hc1, Hc2. unfold report, print_table.
    erewrite bind_eq_Ok by reflexivity. rewrite Ht1.
    erewrite bind_eq_Ok by reflexivity.
    erewrite bind_eq_Ok by reflexivity. rewrite Ht2.
    erewrite bind_eq_Ok by reflexivity.
    rewrite Hc1. erewrite bind_eq_Ok by reflexivity.
    rewrite Hc2. by eexists _, _.
Qed.

(** X4. A report that returns logs two tables, the means and then the
    standard deviations, each with the ten cells T1w and T2w by the five
    tissue classes in print order; the value of cell [w, i] is item
    [w, i] of the sum of the list divided by its length. *)
Theorem X4_report_tables phase w u w' :
  report phase w = Ok (u, w') →
  ∃ c1 c2 t1 t2,
    w' = add_trace [EvReport (mean_title phase) c1;
                    EvReport (std_title phase) c2] w ∧
    sum_axis0 (feature_mean_intensities w) = Ok t1 ∧
    sum_axis0 (feature_std_intensities w) = Ok t2 ∧
    c1.*1 = table_header ∧ c2.*1 = table_header ∧
    Forall2 (λ p cell,
        getitem2 (divide t1 (length (feature_mean_intensities w))) p.1 p.2
        = Ok cell.2)
      table_positions c1 ∧
    Forall2 (λ p cell,
        getitem2 (divide t2 (length (feature_std_intensities w))) p.1 p.2
        = Ok cell.2)
      table_positions c2.
Proof.
  intros (c1 & c2 & Hc1 & Hc2 & ->)%report_Ok.
  unfold report_cells in Hc1, Hc2.
  destruct (sum_axis0 (feature_mean_intensities w)) as [e|t1]; [done|].
  destruct (sum_axis0 (feature_std_intensities w)) as [e|t2]; [done|].
  simpl in Hc1, Hc2.
  apply table_cells_Ok in Hc1 as (_ & ? & ?), Hc2 as (_ & ? & ?).
  by exists c1, c2, t1, t2.
Qed.

(** X5. Both batch calls receive the same normalization method: the
    chosen one when normalization pre-processing is enabled and "no"
    when it is not; the exported files are named after that method. *)
Theorem X5_one_normalization_method cfg rd ad td sd w0 L w1 :
  main_with cfg rd ad td sd w0 = Ok (L, w1) →
  ∃ new (enabled : bool),
    trace w1 = trace w0 ++ new ∧
    pre_process_params cfg !! "normalization_pre" = Some enabled ∧
    let nm := if enabled then chosen_norm_method cfg else "no" in
    norm_methods new = [nm; nm] ∧
    (take (2 * length (images_train L)) (written new)).*1.*2 =
      mjoin ((λ img, [t1w_path nm img; t2w_path nm img]) <$> images_train L).
Proof.
  intros Hrun. open_run Hrun.
  unfold effective_norm_method, dict_getitem in Hnm.
  destruct (pre_process_params cfg !! "normalization_pre") as [enabled|] eqn:Hen;
    [|done].
  injection Hnm as <-.
  eexists _, enabled. split; [exact Htrace|]. split; [done|].
  replace (if negb enabled then "no" else chosen_norm_method cfg)
    with (if enabled then chosen_norm_method cfg else "no") by by destruct enabled.
  cbv zeta. split.
  - unfold norm_methods. by read_log.
  - unfold written. read_log.
    match goal with
    | |- context [take _ (?l1 ++ ?l2)] =>
        replace (2 * length (images_train L)) with (length l1)
    end.
    + rewrite take_app_length. generalize (images_train L). clear.
      induction l as [|img l IH]; csimpl; [done|]. do 2 f_equal. exact IH.
    + generalize (images_train L). clear.
      induction l as [|img l IH]; csimpl; [done|]. rewrite IH. lia.
Qed.

(** X6. The forest is built with 20 trees of depth at most 25, and its
    [max_features] is the number of columns of the matrix it is fit on:
    every feature is a candidate at every split. *)
Theorem X6_forest_hyperparameters cfg rd ad td sd w0 L w1 :
  main_with cfg rd ad td sd w0 = Ok (L, w1) →
  n_estimators (hyper (forest_ L)) = 20 ∧
  max_depth (hyper (forest_ L)) = 25 ∧
  shape (data_train L) !! 1 = Some (max_features (hyper (forest_ L))) ∧
  rows (data_train L) =
    sum_list ((λ img, rows (feature_matrix img).1) <$> images_train L).
Proof.
  intros Hrun. open_run Hrun. clear Htrace.
  rewrite Hforest. cbn [hyper n_estimators max_depth max_features].
  apply concatenate_Ok in HD as (tl0 & Hsh & _ & Htl).
  split_and!; try done.
  - rewrite Hsh. rewrite Forall_forall in Htl.
    destruct (Htl (feature_matrix img0).1) as [n Hn].
    { apply list_elem_of_fmap. exists img0. split; [done|].
      by eapply list_elem_of_lookup_2. }
    by rewrite Hn in Hnf.
  - unfold rows at 1. rewrite Hsh. simpl. by rewrite <-list_fmap_compose.
Qed.

(** X7. When every training subject's label array is a column (n by
    1), the label vector the forest is fit on holds the labels of all
    subjects in subject order; it is one-dimensional, except that a
    single training row in total leaves a 0-d array after [squeeze]. *)
Theorem X7_label_vector_shape cfg rd ad td sd w0 L w1 :
  main_with cfg rd ad td sd w0 = Ok (L, w1) →
  Forall (λ img, ∃ n, shape (feature_matrix img).2 = [n; 1]) (images_train L) →
  let N := sum_list ((λ img, rows (feature_matrix img).2) <$> images_train L) in
  shape (labels_train L) = (if decide (N = 1) then [] else [N]) ∧
  data (labels_train L) = mjoin ((λ img, data (feature_matrix img).2) <$> images_train L).
Proof.
  intros Hrun Hcols N. open_run Hrun. clear Htrace.
  apply concatenate_Ok in Hlbl as (tl0 & Hsh & Hdata & Htl).
  assert (HN : sum_list (rows <$> ((λ img, (feature_matrix img).2) <$> images_train L))
               = N).
  { unfold N. by rewrite <-list_fmap_compose. }
  rewrite HN in Hsh.
  assert (tl0 = [1]) as ->.
  { destruct (images_train L) as [|img imgs]; [done|].
    apply Forall_cons in Hcols as [[n Hn] _].
    apply Forall_cons in Htl as [[n' Hn'] _]. simpl in Hn'. congruence. }
  rewrite Hlabels. unfold squeeze. cbn [shape data]. rewrite Hsh, Hdata.
  split; [|by rewrite <-list_fmap_compose].
  destruct (decide (N = 1)) as [->|Hne].
  - reflexivity.
  - rewrite filter_cons_True by done. reflexivity.
Qed.

Lemma for_each_unit_forward {A} (body : A → M unit) (E : A → list Event)
    (P : A → bool) (e : exn) (l : list A) :
  (∀ x w, x ∈ l →
     body x w = if P x then Ok (tt, add_trace (E x) w) else Err e) →
  ∀ w, for_each body l w =
       if forallb P l
       then Ok (replicate (length l) tt, add_trace (mjoin (E <$> l)) w)
       else Err e.
Proof.
  induction l as [|x l IH]; intros Hbody w; simpl.
  - by rewrite add_trace_nil.
  - unfold mbind, M_bind. rewrite Hbody by left.
    destruct (P x); [|done]. simpl.
    rewrite IH by (intros ???; apply Hbody; by right).
    destruct (forallb P l); [|done]. simpl. by rewrite add_trace_app.
Qed.

Lemma forallb_enumerate {A} (f : A → bool) (l : list A) :
  forallb (λ p, f p.2) (enumerate l) = forallb f l.
Proof.
  rewrite <-(enumerate_snd l) at 2. generalize (enumerate l).
  intros l0. induction l0 as [|p l0 IH]; simpl; [done|]. by rewrite IH.
Qed.

(** X13. The normalized-image export needs nothing of a subject but its
    T1w volume: it returns, having written both files of every subject,
    exactly when every subject has one, and raises KeyError for T1w
    otherwise. The other volumes of a subject may be missing. *)
Theorem X13_export_needs_only_T1w nm imgs w :
  save_normalized nm imgs w =
  if forallb (has_image T1w) imgs
  then Ok (tt, add_trace (export_events nm imgs) w)
  else Err (KeyError "BrainImageTypes.T1w").
Proof.
  unfold save_normalized.
  pose proof (for_each_unit_forward
    (λ '(i, img),
       a ← lift (list_getitem imgs i);
       b ← lift (list_getitem imgs i);
       c ← lift (list_getitem imgs i);
       x ← lift (image_of c T1w);
       emit (EvWriteImage x
               (OsPath.join "./mia-result/norm images/"
                  (nm +:+ "-norm_" +:+ id_ a +:+ "_T1w.nii.gz")) false);;
       d ← lift (list_getitem imgs i);
       y ← lift (image_of d T1w);
       emit (EvWriteImage y
               (OsPath.join "./mia-result/norm images/"
                  (nm +:+ "-norm_" +:+ id_ b +:+ "_T2w.nii.gz")) false))
    (λ p, [EvWriteImage (images p.2 !!! T1w) (t1w_path nm p.2) false;
           EvWriteImage (images p.2 !!! T1w) (t2w_path nm p.2) false])
    (λ p, has_image T1w p.2)
    (KeyError "BrainImageTypes.T1w") (enumerate imgs)) as Hloop.
  unfold mbind at 1. unfold M_bind at 1. rewrite Hloop; clear Hloop.
  - rewrite forallb_enumerate.
    destruct (forallb (has_image T1w) imgs); [|done].
    unfold export_events.
    rewrite <-(enumerate_snd imgs) at 2. by rewrite <-list_fmap_compose.
  - intros [i img] w' Hin%elem_of_enumerate.
    unfold has_image, list_getitem, image_of, mbind, M_bind, lift. simpl.
    rewrite Hin. simpl. destruct (images img !! T1w) as [x|] eqn:Hx.
    + rewrite bool_decide_eq_true_2 by by eexists.
      rewrite (lookup_total_correct _ _ _ Hx). simpl.
      unfold emit, modify. by rewrite add_trace_app.
    + rewrite bool_decide_eq_false_2; [done|]. by intros [??].
Qed.

(** ** The cast to 8 bits *)

Lemma to_uint8_of_Z (z : Z) : to_uint8 (Qc_of_Z z) = Qc_of_Z (z `mod` 256).
Proof. unfold to_uint8. simpl. by rewrite Z.quot_1_r. Qed.

Lemma astype_uint8_small (a : ndarray) :
  Forall (λ x, ∃ z, x = Qc_of_Z z ∧ (0 ≤ z < 256)%Z) (data a) →
  astype_uint8 a = a.
Proof.
  intros Hall. unfold astype_uint8. destruct a as [sh d]. simpl in *. f_equal.
  induction Hall as [|x d (z & -> & Hz) _ IH]; csimpl; [done|].
  rewrite IH, to_uint8_of_Z. by rewrite Z.mod_small.
Qed.

(** X8. Casting the predictions to 8 bits leaves an array of integer
    class labels between 0 and 255 as it is, shape included. *)
Theorem X8_label_cast_keeps_small_labels (a : ndarray) :
  Forall (λ x, ∃ z, x = Qc_of_Z z ∧ (0 ≤ z < 256)%Z) (data a) →
  astype_uint8 a = a.
Proof. apply astype_uint8_small. Qed.

(** X15. Whatever the forest answers, every item of a label volume is
    an integer between 0 and 255, and casting twice changes nothing. *)
Theorem X15_label_cast_range (a : ndarray) :
  Forall (λ x, ∃ z, x = Qc_of_Z z ∧ (0 ≤ z < 256)%Z) (data (astype_uint8 a)) ∧
  astype_uint8 (astype_uint8 a) = astype_uint8 a.
Proof.
  assert (Hrange : Forall (λ x, ∃ z, x = Qc_of_Z z ∧ (0 ≤ z < 256)%Z)
                     (data (astype_uint8 a))).
  { unfold astype_uint8. simpl. apply Forall_fmap, Forall_true. intros x.
    eexists. split; [reflexivity|]. by apply Z.mod_pos_bound. }
  split; [done|]. by apply astype_uint8_small.
Qed.

(** ** Strings and paths *)

Lemma string_app_cons (c : ascii) (s t : string) :
  String c s +:+ t = String c (s +:+ t).
Proof. reflexivity. Qed.

Lemma string_app_nil (t : string) : EmptyString +:+ t = t.
Proof. reflexivity. Qed.

Lemma string_length_app (s t : string) :
  String.length (s +:+ t) = String.length s + String.length t.
Proof.
  induction s as [|c s IH]; [done|].
  rewrite string_app_cons. simpl. by rewrite IH.
Qed.

Lemma string_app_assoc (a b c : string) : (a +:+ b) +:+ c = a +:+ b +:+ c.
Proof.
  induction a as [|x a IH]; [done|].
  rewrite !string_app_cons. by rewrite IH.
Qed.

Lemma string_app_inj_suffix (s s' u u' : string) :
  String.length u = String.length u' → s +:+ u = s' +:+ u' → s = s' ∧ u = u'.
Proof.
  revert s'. induction s as [|c s IH]; intros [|c' s'] Hlen Heq;
    rewrite ?string_app_cons, ?string_app_nil in Heq.
  - done.
  - subst u. simpl in Hlen. rewrite string_length_app in Hlen. lia.
  - subst u'. simpl in Hlen. rewrite string_length_app in Hlen. lia.
  - injection Heq as -> Heq. by destruct (IH _ Hlen Heq) as [-> ->].
Qed.

Lemma string_app_inj_r (u : string) : Inj (=) (=) (λ s, s +:+ u).
Proof. intros s s' Heq. by apply string_app_inj_suffix in Heq as [? _]. Qed.

Lemma T1w_T2w_names_differ (x y : string) :
  x +:+ "_T1w.nii.gz" ≠ y +:+ "_T2w.nii.gz".
Proof. by intros [_ [=]]%string_app_inj_suffix. Qed.

Lemma SEG_PP_names_differ (x y : string) :
  x +:+ "_SEG.mha" ≠ y +:+ "_SEG-PP.mha".
Proof.
  change "_SEG-PP.mha" with ("_SE" +:+ "G-PP.mha").
  rewrite <-string_app_assoc. by intros [_ [=]]%string_app_inj_suffix.
Qed.

Lemma join_of_relative (a b : string) :
  OsPath.is_abs b = false → OsPath.join a b = dir_prefix a +:+ b.
Proof.
  intros Hb. unfold OsPath.join, dir_prefix. rewrite Hb.
  destruct (_ || _); [done|]. by rewrite string_app_assoc.
Qed.

Lemma is_abs_app (s t : string) :
  OsPath.is_abs s = false → OsPath.is_abs t = false →
  OsPath.is_abs (s +:+ t) = false.
Proof. by destruct s. Qed.

Lemma export_path (nm i suffix : string) :
  OsPath.join "./mia-result/norm images/" (nm +:+ "-norm_" +:+ i +:+ suffix)
  = export_prefix nm +:+ i +:+ suffix.
Proof.
  unfold OsPath.join, export_prefix.
  replace (OsPath.is_abs (nm +:+ "-norm_" +:+ i +:+ suffix))
    with (OsPath.is_abs nm) by by destruct nm.
  destruct (OsPath.is_abs nm).
  - by rewrite string_app_assoc.
  - change (bool_decide _ || _) with true. cbv iota.
    by rewrite !string_app_assoc.
Qed.

Lemma elem_of_paired (x P s1 s2 : string) (ids : list string) :
  x ∈ paired P s1 s2 ids ↔
  ∃ i, i ∈ ids ∧ (x = P +:+ i +:+ s1 ∨ x = P +:+ i +:+ s2).
Proof.
  unfold paired. rewrite list_elem_of_join. split.
  - intros (l & Hx & (i & -> & Hi)%list_elem_of_fmap).
    exists i. split; [done|].
    apply elem_of_cons in Hx as [->|Hx]; [by left|].
    apply elem_of_cons in Hx as [->|Hx]; [by right|].
    by apply elem_of_nil in Hx.
  - intros (i & Hi & Hx). eexists. split; [|apply list_elem_of_fmap; eauto].
    destruct Hx as [-> | ->]; [left|right; left].
Qed.

Lemma NoDup_paired (P s1 s2 : string) (ids : list string) :
  (∀ x y, x +:+ s1 ≠ y +:+ s2) → NoDup ids → NoDup (paired P s1 s2 ids).
Proof.
  intros Hdiff. induction 1 as [|i ids Hi _ IH]; [constructor|].
  change (NoDup ((P +:+ i +:+ s1) :: (P +:+ i +:+ s2) :: paired P s1 s2 ids)).
  assert (Hfresh : ∀ s, (s = s1 ∨ s = s2) → P +:+ i +:+ s ∉ paired P s1 s2 ids).
  { intros s Hs (j & Hj & Hx)%elem_of_paired. apply Hi.
    destruct Hx as [Hx%(inj _)|Hx%(inj _)], Hs as [-> | ->].
    - by apply string_app_inj_r in Hx as ->.
    - symmetry in Hx. by apply Hdiff in Hx.
    - by apply Hdiff in Hx.
    - by apply string_app_inj_r in Hx as ->. }
  apply NoDup_cons. split.
  - intros [Hx%(inj _)|Hx]%elem_of_cons; [by apply Hdiff in Hx|].
    revert Hx. apply Hfresh. by left.
  - apply NoDup_cons. split; [|done]. apply Hfresh. by right.
Qed.

Lemma gz_mha_differ (p q : string) : p +:+ "i.gz" ≠ q +:+ ".mha".
Proof. by intros [_ [=]]%string_app_inj_suffix. Qed.

Lemma export_name_ends (P i s : string) :
  s = "_T1w.nii.gz" ∨ s = "_T2w.nii.gz" → ∃ p, P +:+ i +:+ s = p +:+ "i.gz".
Proof.
  intros [-> | ->];
    [exists (P +:+ i +:+ "_T1w.ni") | exists (P +:+ i +:+ "_T2w.ni")];
    by rewrite !string_app_assoc.
Qed.

Lemma result_name_ends (P i s : string) :
  s = "_SEG.mha" ∨ s = "_SEG-PP.mha" → ∃ p, P +:+ i +:+ s = p +:+ ".mha".
Proof.
  intros [-> | ->];
    [exists (P +:+ i +:+ "_SEG") | exists (P +:+ i +:+ "_SEG-PP")];
    by rewrite !string_app_assoc.
Qed.

Lemma export_result_names_differ (P i s R j t : string) :
  s = "_T1w.nii.gz" ∨ s = "_T2w.nii.gz" →
  t = "_SEG.mha" ∨ t = "_SEG-PP.mha" →
  P +:+ i +:+ s ≠ R +:+ j +:+ t.
Proof.
  intros [p ->]%(export_name_ends P i) [q ->]%(result_name_ends R j).
  apply gz_mha_differ.
Qed.

Lemma has_sep_app (s t : string) : has_sep (s +:+ t) = has_sep s || has_sep t.
Proof.
  induction s as [|c s IH]; [done|].
  rewrite string_app_cons. simpl. by rewrite IH, orb_assoc.
Qed.

Lemma segmentation_file_name (i suffix : string) :
  has_sep i = false → has_sep suffix = false → 3 ≤ String.length suffix →
  file_name (i +:+ suffix).
Proof.
  intros Hi Hs Hlen.
  assert (Hne : ∀ s, String.length s < 3 → i +:+ suffix ≠ s).
  { intros s Hshort Heq. apply (f_equal String.length) in Heq.
    rewrite string_length_app in Heq. lia. }
  split_and!.
  - by rewrite has_sep_app, Hi, Hs.
  - apply Hne. simpl. lia.
  - apply Hne. simpl. lia.
  - apply Hne. simpl. lia.
Qed.

Lemma fmap_zip_with_const {A B C D} (F : A → B → C) (g : C → D) (h : A → D)
    (l : list A) (k : list B) :
  length k = length l → (∀ x y, g (F x y) = h x) →
  g <$> zip_with F l k = h <$> l.
Proof.
  intros Hlen HF. revert k Hlen.
  induction l as [|x l IH]; intros [|y k] Hlen; simpl in *; [done..|].
  rewrite HF. f_equal. apply IH. lia.
Qed.

Lemma export_writes_paths nm imgs :
  (export_writes nm imgs).*1.*2 =
  paired (export_prefix nm) "_T1w.nii.gz" "_T2w.nii.gz" (id_ <$> imgs).
Proof.
  unfold export_writes, paired. induction imgs as [|img l IH]; csimpl; [done|].
  rewrite IH. unfold t1w_path, t2w_path. by rewrite !export_path.
Qed.

Lemma result_writes_paths rdir imgs preds pps :
  Forall (λ img, OsPath.is_abs (id_ img) = false) imgs →
  (result_writes rdir imgs preds pps).*1.*2 =
  paired (dir_prefix rdir) "_SEG.mha" "_SEG-PP.mha" (id_ <$> imgs).
Proof.
  intros Hrel. unfold result_writes, paired.
  rewrite <-(enumerate_snd imgs) in Hrel.
  rewrite <-(enumerate_snd imgs) at 2.
  revert Hrel. generalize (enumerate imgs). intros l.
  induction l as [|[i img] l IH]; intros Hrel; csimpl; [done|].
  apply Forall_cons in Hrel as [Himg Hrel]. simpl in Himg.
  rewrite IH by done.
  by rewrite !join_of_relative by by apply is_abs_app.
Qed.

Lemma export_writes_uncompressed nm imgs x :
  x ∈ export_writes nm imgs → x.2 = false.
Proof.
  unfold export_writes.
  intros (l & Hx & (img & -> & _)%list_elem_of_fmap)%list_elem_of_join.
  apply elem_of_cons in Hx as [->|Hx]; [done|].
  apply elem_of_cons in Hx as [->|Hx]; [done|].
  by apply elem_of_nil in Hx.
Qed.

Lemma result_writes_directly_in rdir imgs preds pps x :
  Forall (λ img, has_sep (id_ img) = false) imgs →
  x ∈ result_writes rdir imgs preds pps → directly_in rdir x.1.2.
Proof.
  intros Hids. unfold result_writes.
  intros (l & Hx & ([i img] & -> & Hin)%list_elem_of_fmap)%list_elem_of_join.
  apply elem_of_enumerate, list_elem_of_lookup_2 in Hin.
  rewrite Forall_forall in Hids. specialize (Hids _ Hin).
  apply elem_of_cons in Hx as [->|Hx].
  { eexists. split; [|done]. apply segmentation_file_name; [done..|simpl; lia]. }
  apply elem_of_cons in Hx as [->|Hx].
  { eexists. split; [|done]. apply segmentation_file_name; [done..|simpl; lia]. }
  by apply elem_of_nil in Hx.
Qed.

Lemma run_written cfg rd ad td sd w0 L w1 :
  main_with cfg rd ad td sd w0 = Ok (L, w1) →
  ∃ new nm,
    trace w1 = trace w0 ++ new ∧
    written new =
      export_writes nm (images_train L) ++
      result_writes (OsPath.join rd (now w0)) (images_test_ L)
        (images_prediction_ L) (images_post_processed_ L).
Proof.
  intros Hrun. open_run Hrun. eexists _, nm. split; [exact Htrace|].
  unfold written. by read_log.
Qed.

Lemma run_evaluation_tags cfg rd ad td sd w0 L w1 :
  main_with cfg rd ad td sd w0 = Ok (L, w1) →
  ∃ new,
    trace w1 = trace w0 ++ new ∧
    evaluation_tags new =
      (id_ <$> images_test_ L) ++ ((λ img, id_ img +:+ "-PP") <$> images_test_ L).
Proof.
  intros Hrun. open_run Hrun.
  assert (Hsegs : length (images_prediction_ L) = length (images_test_ L)).
  { apply Forall2_length in Hpred. rewrite length_zip_with in Hpred. lia. }
  assert (Hpps : length (images_post_processed_ L) = length (images_test_ L)).
  { apply Forall2_length in Hpp. rewrite !length_zip_with in Hpp. lia. }
  eexists. split; [exact Htrace|].
  unfold evaluation_tags, evaluation_records. read_log.
  rewrite fmap_app. f_equal.
  - rewrite join_zip_with_singleton. by apply fmap_zip_with_const.
  - rewrite (join_fmap_pair_singleton
      (λ i img, (images_post_processed_ L !!! i, images img !!! GroundTruth,
                 id_ img +:+ "-PP"))).
    rewrite (fmap_enumerate_lookup_total
      (λ img pp, (pp, images img !!! GroundTruth, id_ img +:+ "-PP"))) by done.
    by apply fmap_zip_with_const.
Qed.

(** X9. The result directory is created and the evaluator initialised
    on it before anything is evaluated and before any segmentation is
    written: what is written earlier is the export of the normalized
    training images, and nothing is evaluated earlier. *)
Theorem X9_result_directory_first cfg rd ad td sd w0 L w1 :
  main_with cfg rd ad td sd w0 = Ok (L, w1) →
  ∃ pre post nm,
    let rdir := OsPath.join rd (now w0) in
    trace w1 = trace w0 ++ pre ++ [EvMakedirs rdir; EvInitEvaluator rdir] ++ post ∧
    evaluation_records pre = [] ∧
    written pre = export_writes nm (images_train L) ∧
    written post =
      result_writes rdir (images_test_ L) (images_prediction_ L)
        (images_post_processed_ L) ∧
    length (evaluation_records post) = 2 * length (images_test_ L).
Proof.
  intros Hrun. open_run Hrun.
  assert (Hsegs : length (images_prediction_ L) = length (images_test_ L)).
  { apply Forall2_length in Hpred. rewrite length_zip_with in Hpred. lia. }
  eexists
    ([EvInitGlobal;
      EvPreProcessBatch (crawler_data td) (pre_process_params cfg) nm "none" false] ++
     plot_evs ++ export_events nm (images_train L) ++
     [EvReport (mean_title "training") c1; EvReport (std_title "training") c2;
      EvInitGlobal;
      EvFit {| max_features := nf; n_estimators := 20; max_depth := 25 |}
        (data_train L) (labels_train L)]),
    ([EvPreProcessBatch (crawler_data sd)
        (<["training" := false]> (pre_process_params cfg)) nm am false;
      EvReport (mean_title "testing") c3; EvReport (std_title "testing") c4] ++
     predict_events (forest_ L) (images_test_ L) (images_prediction_ L) ++
     [EvPostProcessBatch (images_test_ L) (images_prediction_ L)
        (images_probabilities_ L) (<["simple_post" := true]> ∅) true] ++
     final_events (OsPath.join rd (now w0)) (images_test_ L)
       (images_prediction_ L) (images_post_processed_ L)), nm.
  cbv zeta. split_and!.
  - rewrite Htrace. f_equal. cbn [app]. do 2 f_equal.
    rewrite <-!app_assoc. by cbn [app].
  - unfold evaluation_records. by read_log.
  - unfold written. read_log. by rewrite app_nil_r.
  - unfold written. by read_log.
  - unfold evaluation_records. read_log.
    rewrite length_app, join_zip_with_singleton, length_zip_with.
    rewrite (join_fmap_pair_singleton
      (λ i img, (images_post_processed_ L !!! i, images img !!! GroundTruth,
                 id_ img +:+ "-PP"))).
    rewrite length_fmap. unfold enumerate. rewrite length_zip_with, length_seq.
    lia.
Qed.

(** X10. No image file is written twice: when the training subjects
    have distinct ids, and the test subjects have distinct ids none of
    which is an absolute path, the paths of all image files written in
    a run are pairwise distinct. *)
Theorem X10_no_file_written_twice cfg rd ad td sd w0 L w1 :
  main_with cfg rd ad td sd w0 = Ok (L, w1) →
  NoDup (id_ <$> images_train L) →
  NoDup (id_ <$> images_test_ L) →
  Forall (λ img, OsPath.is_abs (id_ img) = false) (images_test_ L) →
  ∃ new, trace w1 = trace w0 ++ new ∧ NoDup (written_paths new).
Proof.
  intros (new & nm & Htrace & Hw)%run_written Htrain Htest Hrel.
  exists new. split; [done|]. unfold written_paths.
  rewrite Hw, !fmap_app, export_writes_paths, result_writes_paths by done.
  apply NoDup_app. split_and!.
  - by apply NoDup_paired; [apply T1w_T2w_names_differ|].
  - intros x (i & _ & Hx)%elem_of_paired (j & _ & Hy)%elem_of_paired.
    destruct Hx as [-> | ->], Hy as [Hy|Hy]; revert Hy;
      apply export_result_names_differ; by eauto.
  - by apply NoDup_paired; [apply SEG_PP_names_differ|].
Qed.

(** X11. The tags of the evaluation records of a run are the test
    subjects' ids followed by the ids with -PP appended; they are
    pairwise distinct exactly when the ids are and no subject's id is
    another's followed by -PP. *)
Theorem X11_evaluation_tags_distinct cfg rd ad td sd w0 L w1 :
  main_with cfg rd ad td sd w0 = Ok (L, w1) →
  ∃ new,
    trace w1 = trace w0 ++ new ∧
    evaluation_tags new =
      (id_ <$> images_test_ L) ++ ((λ img, id_ img +:+ "-PP") <$> images_test_ L) ∧
    (NoDup (evaluation_tags new) ↔
     NoDup (id_ <$> images_test_ L) ∧
     ∀ a b, a ∈ images_test_ L → b ∈ images_test_ L → id_ a ≠ id_ b +:+ "-PP").
Proof.
  intros (new & Htrace & Htags)%run_evaluation_tags.
  exists new. split; [done|]. split; [done|]. rewrite Htags.
  rewrite NoDup_app.
  rewrite (list_fmap_compose id_ (λ s, s +:+ "-PP")).
  pose proof (string_app_inj_r "-PP") as Hinj.
  rewrite (NoDup_fmap (λ s, s +:+ "-PP")). split.
  - intros (Hnd & Hdisj & _). split; [done|]. intros a b Ha Hb Heq.
    apply (Hdisj (id_ a)); [by apply list_elem_of_fmap; eauto|].
    rewrite Heq. apply list_elem_of_fmap. eexists. split; [done|].
    apply list_elem_of_fmap. eauto.
  - intros [Hnd Hne]. split_and!; [done| |done].
    intros x (a & -> & Ha)%list_elem_of_fmap
      (s & Hs & (b & -> & Hb)%list_elem_of_fmap)%list_elem_of_fmap.
    by apply (Hne a b).
Qed.

(** X16. When no test subject's id contains a path separator, every
    image file written with compression, that is every segmentation,
    is a single file name joined to the result directory of the run:
    the file lies directly in that directory. *)
Theorem X16_segmentations_in_result_directory cfg rd ad td sd w0 L w1 :
  main_with cfg rd ad td sd w0 = Ok (L, w1) →
  Forall (λ img, has_sep (id_ img) = false) (images_test_ L) →
  ∃ new,
    trace w1 = trace w0 ++ new ∧
    ∀ x path, (x, path, true) ∈ written new →
      directly_in (OsPath.join rd (now w0)) path.
Proof.
  intros (new & nm & Htrace & Hw)%run_written Hids.
  exists new. split; [done|]. intros x path. rewrite Hw.
  intros [Hin%export_writes_uncompressed|Hin]%elem_of_app; [done|].
  by apply (result_writes_directly_in _ _ _ _ _ Hids) in Hin.
Qed.

Lemma lookup_enumerate {A} (l : list A) i x :
  l !! i = Some x → (i, x) ∈ enumerate l.
Proof.
  intros Hl. apply (list_elem_of_lookup_2 _ i). unfold enumerate.
  apply lookup_zip_with_Some. exists i, x. split; [done|]. split; [|done].
  apply lookup_seq. split; [done|]. by eapply lookup_lt_Some.
Qed.

Lemma run_records cfg rd ad td sd w0 L w1 :
  main_with cfg rd ad td sd w0 = Ok (L, w1) →
  ∃ new,
    trace w1 = trace w0 ++ new ∧
    length (images_prediction_ L) = length (images_test_ L) ∧
    length (images_post_processed_ L) = length (images_test_ L) ∧
    evaluation_records new =
      raw_records (images_test_ L) (images_prediction_ L) ++
      post_processed_records (images_test_ L) (images_post_processed_ L).
Proof.
  intros Hrun. open_run Hrun.
  assert (Hsegs : length (images_prediction_ L) = length (images_test_ L)).
  { apply Forall2_length in Hpred. rewrite length_zip_with in Hpred. lia. }
  assert (Hpps : length (images_post_processed_ L) = length (images_test_ L)).
  { apply Forall2_length in Hpp. rewrite !length_zip_with in Hpp. lia. }
  eexists. split; [exact Htrace|]. split; [done|]. split; [done|].
  unfold evaluation_records. read_log. f_equal.
  - apply join_zip_with_singleton.
  - rewrite (join_fmap_pair_singleton
      (λ i img, (images_post_processed_ L !!! i, images img !!! GroundTruth,
                 id_ img +:+ "-PP"))).
    by apply (fmap_enumerate_lookup_total
      (λ img pp, (pp, images img !!! GroundTruth, id_ img +:+ "-PP"))).
Qed.

(** X12. What is evaluated is what is saved: for every test subject
    the volume evaluated under the subject's id is the one written to
    the _SEG file, and the volume evaluated under the id with -PP is
    the one written to the _SEG-PP file, both against the subject's
    ground truth. *)
Theorem X12_evaluated_volumes_are_saved cfg rd ad td sd w0 L w1 :
  main_with cfg rd ad td sd w0 = Ok (L, w1) →
  ∃ new,
    trace w1 = trace w0 ++ new ∧
    ∀ i img, images_test_ L !! i = Some img →
      ∃ seg pp,
        images_prediction_ L !! i = Some seg ∧
        images_post_processed_ L !! i = Some pp ∧
        (seg, images img !!! GroundTruth, id_ img) ∈ evaluation_records new ∧
        (seg, OsPath.join (OsPath.join rd (now w0)) (id_ img +:+ "_SEG.mha"), true)
          ∈ written new ∧
        (pp, images img !!! GroundTruth, id_ img +:+ "-PP")
          ∈ evaluation_records new ∧
        (pp, OsPath.join (OsPath.join rd (now w0)) (id_ img +:+ "_SEG-PP.mha"), true)
          ∈ written new.
Proof.
  intros Hrun.
  destruct (run_records _ _ _ _ _ _ _ _ Hrun)
    as (new & Htrace & Hsegs & Hpps & Hrec).
  destruct (run_written _ _ _ _ _ _ _ _ Hrun) as (new' & nm & Htrace' & Hw).
  assert (new' = new) as ->.
  { rewrite Htrace in Htrace'. by apply app_inv_head in Htrace'. }
  exists new. split; [done|]. intros i img Himg.
  pose proof (lookup_lt_Some _ _ _ Himg) as Hi.
  destruct (lookup_lt_is_Some_2 (images_prediction_ L) i) as [seg Hseg]; [lia|].
  destruct (lookup_lt_is_Some_2 (images_post_processed_ L) i) as [pp Hpp]; [lia|].
  exists seg, pp. rewrite Hrec, Hw. split; [done|]. split; [done|].
  assert (Hfinal : ∀ x,
    x ∈ [(seg, OsPath.join (OsPath.join rd (now w0)) (id_ img +:+ "_SEG.mha"), true);
         (pp, OsPath.join (OsPath.join rd (now w0)) (id_ img +:+ "_SEG-PP.mha"), true)] →
    x ∈ result_writes (OsPath.join rd (now w0)) (images_test_ L)
          (images_prediction_ L) (images_post_processed_ L)).
  { intros x Hx. unfold result_writes. apply list_elem_of_join.
    eexists. split; [|apply list_elem_of_fmap; eexists; split;
                       [done|by apply lookup_enumerate]].
    simpl. by rewrite (list_lookup_total_correct _ _ _ Hseg),
      (list_lookup_total_correct _ _ _ Hpp). }
  split_and!.
  - apply elem_of_app. left. unfold raw_records.
    apply (list_elem_of_lookup_2 _ i), lookup_zip_with_Some. by eexists _, _.
  - apply elem_of_app. right. apply Hfinal. by left.
  - apply elem_of_app. right. unfold post_processed_records.
    apply (list_elem_of_lookup_2 _ i), lookup_zip_with_Some. by eexists _, _.
  - apply elem_of_app. right. apply Hfinal. right. by left.
Qed.

(** X14. The plots look at the first subject only: whatever follows it
    in the list, the plot section does the same, raising or returning
    with the same calls. *)
Theorem X14_plots_first_subject_only cfg nm img rest rest' w :
  plots cfg nm (img :: rest) w = plots cfg nm (img :: rest') w.
Proof.
  unfold plots. by destruct (plot_slice cfg), (plot_hist cfg).
Qed.

End PipelineFacts.

(** * Facts about normalization *)

Section NormalizationFacts.

Import Normalization.

Context `{SquareRoot}.

Local Open Scope Qc_scope.

Lemma total_constant (xs : list Qc) (c : Qc) :
  Forall (λ x, x = c) xs → total xs = c * Qc_of_Z (Z.of_nat (length xs)).
Proof.
  induction 1 as [|x xs -> _ IH].
  - change (0 = c * Qc_of_Z 0). rewrite Z2Qc_inj_0. ring.
  - change (total (c :: xs)) with (c + total xs). cbn [length].
    rewrite IH, Nat2Z.inj_succ, <-Z.add_1_r, Z2Qc_inj_add, Z2Qc_inj_1. ring.
Qed.

Lemma mean_constant (xs : list Qc) (c : Qc) :
  xs ≠ [] → Forall (λ x, x = c) xs → mean xs = c.
Proof.
  intros Hne Hall. unfold mean. rewrite (total_constant xs c Hall).
  apply Qcdiv_mult_l. rewrite <-Z2Qc_inj_0. intros Heq%Z2Qc_inj.
  destruct xs; [done|]. simpl in Heq. lia.
Qed.

Lemma mean_zeros (xs : list Qc) : Forall (λ x, x = 0) xs → mean xs = 0.
Proof.
  intros Hall. unfold mean. rewrite (total_constant xs 0 Hall).
  unfold Qcdiv. ring.
Qed.

Lemma variance_constant (xs : list Qc) (c : Qc) :
  Forall (λ x, x = c) xs → variance xs = 0.
Proof.
  intros Hall. unfold variance. apply mean_zeros.
  destruct xs as [|x xs]; [by constructor|].
  rewrite (mean_constant (x :: xs) c) by done.
  apply Forall_fmap. eapply Forall_impl; [exact Hall|].
  intros y ->. simpl. ring.
Qed.

(** C8. A volume whose intensities inside the mask are all equal has
    masked standard deviation zero, and z-score normalization fails on
    it with a DegenerateInputError instead of returning a volume. *)
Theorem C8_z_score_constant_fails (volume mask : Image) (c : Qc) :
  constant_in_mask volume mask c →
  z_score volume mask = Err DegenerateInputError.
Proof.
  unfold constant_in_mask, z_score, std. intros Hall.
  rewrite (variance_constant _ c Hall), sqrt_0.
  by rewrite decide_True.
Qed.

End NormalizationFacts.

(** * The properties on the small concrete run *)

Import Demo.

Lemma demo_run :
  main_with shipped "out" "atlas" "train" "test" world0
  = Ok (demo_locals, demo_final).
Proof. vm_compute. reflexivity. Qed.

Lemma demo_row_aligned : Forall row_aligned (images_train demo_locals).
Proof. repeat constructor. Qed.

(** C1 on the concrete run: both reports are computed from the statistics of their own pass only. *)
Lemma C1_witness :
  main_with shipped "out" "atlas" "train" "test" world0 = Ok (demo_locals, demo_final) ∧
  (∃ new a nm am train_out r1 r2 test_out r3 c1 c2 c3 c4,
    trace demo_final = trace world0 ++ new ∧
    batch_outcome (pre_process_params shipped) nm "none" (debug_BraTS shipped) (Some a)
      (random_seed 42, np_random_seed 42) (crawler_data "train") = Ok (train_out, r1) ∧
    images_train demo_locals = train_out.*1.*1 ∧
    batch_outcome (<["training" := false]> (pre_process_params shipped)) nm am
      evaluate_BraTS_initial (Some a) r2 (crawler_data "test") = Ok (test_out, r3) ∧
    images_test_ demo_locals = test_out.*1.*1 ∧
    report_cells train_out.*1.*2 = Ok c1 ∧
    report_cells train_out.*2 = Ok c2 ∧
    report_cells test_out.*1.*2 = Ok c3 ∧
    report_cells test_out.*2 = Ok c4 ∧
    lifecycle new =
      [EvInitGlobal;
       EvPreProcessBatch (crawler_data "train") (pre_process_params shipped) nm "none" false;
       EvReport (mean_title "training") c1;
       EvReport (std_title "training") c2;
       EvInitGlobal;
       EvPreProcessBatch (crawler_data "test")
         (<["training" := false]> (pre_process_params shipped)) nm am false;
       EvReport (mean_title "testing") c3;
       EvReport (std_title "testing") c4] ∧
    feature_mean_intensities demo_final = test_out.*1.*2 ∧
    feature_std_intensities demo_final = test_out.*2).
Proof.
  split; [exact demo_run|].
  exact (C1_statistics_reset_between_passes shipped "out" "atlas" "train" "test" world0
           demo_locals demo_final demo_run).
Defined.

(** C2 on the concrete run: the forest is fit once and then only asked to predict. *)
Lemma C2_witness :
  main_with shipped "out" "atlas" "train" "test" world0 = Ok (demo_locals, demo_final) ∧
  (∃ new lbl m r r',
    trace demo_final = trace world0 ++ new ∧
    concatenate ((λ img, (feature_matrix img).1) <$> images_train demo_locals)
      = Ok (data_train demo_locals) ∧
    concatenate ((λ img, (feature_matrix img).2) <$> images_train demo_locals) = Ok lbl ∧
    labels_train demo_locals = squeeze lbl ∧
    forest_fit (hyper (forest_ demo_locals)) (data_train demo_locals) (labels_train demo_locals) r = Ok (m, r') ∧
    fitted (forest_ demo_locals) = Some m ∧
    forest_calls new =
      EvFit (hyper (forest_ demo_locals)) (data_train demo_locals) (labels_train demo_locals)
      :: prediction_calls (forest_ demo_locals) (images_test_ demo_locals)).
Proof.
  split; [exact demo_run|].
  exact (C2_forest_fit_once shipped "out" "atlas" "train" "test" world0
           demo_locals demo_final demo_run).
Defined.

(** C3 on the concrete run: both batches are handed "none". *)
Lemma C3_witness :
  main "out" "atlas" "train" "test" world0 = Ok (demo_locals, demo_final) ∧
  (∃ new nm am,
    trace demo_final = trace world0 ++ new ∧
    configured_artifact_method shipped = Ok am ∧
    batch_calls new =
      [EvPreProcessBatch (crawler_data "train") (pre_process_params shipped) nm am false;
       EvPreProcessBatch (crawler_data "test")
         (<["training" := false]> (pre_process_params shipped)) nm am false] ∧
    follows_artifact_setting shipped new).
Proof.
  split; [exact demo_run|].
  exact (C3_artifact_method_follows_setting "out" "atlas" "train" "test" world0
           demo_locals demo_final demo_run).
Defined.

(** C4 on the concrete run: the training rows line up with their labels. *)
Lemma C4_witness :
  main_with shipped "out" "atlas" "train" "test" world0 = Ok (demo_locals, demo_final) ∧
  Forall row_aligned (images_train demo_locals) ∧
  (let Xs := (λ img, (feature_matrix img).1) <$> images_train demo_locals in
  let ys := (λ img, (feature_matrix img).2) <$> images_train demo_locals in
  concatenate Xs = Ok (data_train demo_locals) ∧
  (∃ lbl, concatenate ys = Ok lbl ∧ labels_train demo_locals = squeeze lbl) ∧
  (∀ k img j,
     images_train demo_locals !! k = Some img → j < rows (feature_matrix img).1 →
     row (data_train demo_locals) (offset Xs k + j) = row (feature_matrix img).1 j ∧
     item (labels_train demo_locals) (offset Xs k + j) = item (feature_matrix img).2 j) ∧
  (∀ i, i < rows (data_train demo_locals) →
     ∃ k img j, images_train demo_locals !! k = Some img ∧
                j < rows (feature_matrix img).1 ∧ i = offset Xs k + j)).
Proof.
  split; [exact demo_run|].
  split; [exact demo_row_aligned|].
  exact (C4_training_rows_aligned shipped "out" "atlas" "train" "test" world0
           demo_locals demo_final demo_run demo_row_aligned).
Defined.

(** C6 on the concrete run: two records per test subject. *)
Lemma C6_witness :
  main_with shipped "out" "atlas" "train" "test" world0 = Ok (demo_locals, demo_final) ∧
  (∃ new,
    trace demo_final = trace world0 ++ new ∧
    length (images_prediction_ demo_locals) = length (images_test_ demo_locals) ∧
    length (images_post_processed_ demo_locals) = length (images_test_ demo_locals) ∧
    Forall (λ img, is_Some (images img !! GroundTruth)) (images_test_ demo_locals) ∧
    Forall2 (λ x pp,
        post_process_subject x.1.1 x.1.2 x.2 (<["simple_post" := true]> ∅) = Ok pp)
      (zip (zip (images_test_ demo_locals) (images_prediction_ demo_locals)) (images_probabilities_ demo_locals))
      (images_post_processed_ demo_locals) ∧
    evaluation_records new =
      raw_records (images_test_ demo_locals) (images_prediction_ demo_locals) ++
      post_processed_records (images_test_ demo_locals) (images_post_processed_ demo_locals) ∧
    length (evaluation_records new) = 2 * length (images_test_ demo_locals) ∧
    ∀ img, id_ img ≠ id_ img +:+ "-PP").
Proof.
  split; [exact demo_run|].
  exact (C6_two_evaluations_per_subject shipped "out" "atlas" "train" "test" world0
           demo_locals demo_final demo_run).
Defined.

(** C7 on the concrete run: the predicted volumes carry the geometry of their subject. *)
Lemma C7_witness :
  main_with shipped "out" "atlas" "train" "test" world0 = Ok (demo_locals, demo_final) ∧
  (Forall2 (λ img seg,
      properties seg = image_properties img ∧
      ∃ m pred, fitted (forest_ demo_locals) = Some m ∧
                forest_predict m (feature_matrix img).1 = Ok pred ∧
                pixels seg = astype_uint8 pred)
    (images_test_ demo_locals) (images_prediction_ demo_locals) ∧
  Forall2 (λ img prob,
      properties prob = image_properties img ∧
      ∃ m proba, fitted (forest_ demo_locals) = Some m ∧
                 forest_predict_proba m (feature_matrix img).1 = Ok proba ∧
                 pixels prob = proba)
    (images_test_ demo_locals) (images_probabilities_ demo_locals)).
Proof.
  split; [exact demo_run|].
  exact (C7_volumes_use_subject_geometry shipped "out" "atlas" "train" "test" world0
           demo_locals demo_final demo_run).
Defined.

(** C10 on the concrete run: the export writes the T1w volume twice. *)
Lemma C10_witness :
  main_with shipped "out" "atlas" "train" "test" world0 = Ok (demo_locals, demo_final) ∧
  (∃ new nm,
    trace demo_final = trace world0 ++ new ∧
    effective_norm_method shipped = Ok nm ∧
    Forall (λ img, is_Some (images img !! T1w)) (images_train demo_locals) ∧
    written new =
      export_writes nm (images_train demo_locals) ++
      result_writes (OsPath.join "out" (now world0)) (images_test_ demo_locals)
        (images_prediction_ demo_locals) (images_post_processed_ demo_locals) ∧
    ∀ x path c, (x, path, c) ∈ export_writes nm (images_train demo_locals) →
      ∃ img, img ∈ images_train demo_locals ∧ images img !! T1w = Some x ∧ c = false ∧
             (path = t1w_path nm img ∨ path = t2w_path nm img)).
Proof.
  split; [exact demo_run|].
  exact (C10_export_writes_T1w_twice shipped "out" "atlas" "train" "test" world0
           demo_locals demo_final demo_run).
Defined.

(** C8 on the concrete volume: intensity 5 everywhere inside the mask. *)
Lemma C8_witness :
  Normalization.constant_in_mask flat_volume flat_mask (qz 5) ∧
  Normalization.z_score flat_volume flat_mask = Err DegenerateInputError.
Proof.
  assert (Hflat : Normalization.constant_in_mask flat_volume flat_mask (qz 5))
    by (vm_compute; repeat constructor).
  split; [exact Hflat|].
  exact (C8_z_score_constant_fails flat_volume flat_mask (qz 5) Hflat).
Defined.

(** ** The concrete runs, read off *)

Example demo_tags :
  (evaluation_records (trace demo_final)).*2 = ["c"; "d"; "c-PP"; "d-PP"].
Proof. vm_compute. reflexivity. Qed.

Example demo_written_paths :
  (written (trace demo_final)).*1.*2 =
  ["./mia-result/norm images/no-norm_a_T1w.nii.gz";
   "./mia-result/norm images/no-norm_a_T2w.nii.gz";
   "./mia-result/norm images/no-norm_b_T1w.nii.gz";
   "./mia-result/norm images/no-norm_b_T2w.nii.gz";
   "out/2020-01-01-00-00-00/c_SEG.mha";
   "out/2020-01-01-00-00-00/c_SEG-PP.mha";
   "out/2020-01-01-00-00-00/d_SEG.mha";
   "out/2020-01-01-00-00-00/d_SEG-PP.mha"].
Proof. vm_compute. reflexivity. Qed.

Example demo_export_is_T1w :
  (take 4 (written (trace demo_final))).*1.*1 =
  [volume [10; 20; 30]%Z; volume [10; 20; 30]%Z;
   volume [40; 50]%Z; volume [40; 50]%Z].
Proof. vm_compute. reflexivity. Qed.

Example demo_artifact_methods :
  artifact_methods (trace demo_final) = ["none"; "none"].
Proof. vm_compute. reflexivity. Qed.

Example demo_forget_stale_statistics :
  feature_mean_intensities world0 = [stat [99%Z]] ∧
  feature_mean_intensities demo_final = [stat [11%Z]; stat [31%Z]].
Proof. vm_compute. split; reflexivity. Qed.

Example z_score_varying_volume :
  ∃ v, Normalization.z_score (volume [5; 9; 7]%Z) flat_mask = Ok v.
Proof. vm_compute. eexists. reflexivity. Qed.

Example no_training_subjects_raises :
  main "out" "atlas" "nowhere" "test" world0 = Err IndexError.
Proof. vm_compute. reflexivity. Qed.

Example fit_draws_from_generator :
  demo_fit {| max_features := 2; n_estimators := 20; max_depth := 25 |}
    (NdArray [1; 1] [qz 1]) (NdArray [1] [qz 1]) (0, 1)%Z
  ≠ demo_fit {| max_features := 2; n_estimators := 20; max_depth := 25 |}
      (NdArray [1; 1] [qz 1]) (NdArray [1] [qz 1]) (0, 2)%Z.
Proof. vm_compute. discriminate. Qed.

Example demo_model : fitted (forest_ demo_locals) = Some (1044%Z, 5).
Proof. reflexivity. Qed.

Example demo_from_another_world :
  ∃ w, main "out" "atlas" "train" "test" world1 = Ok (demo_locals, w).
Proof. vm_compute. eexists. reflexivity. Qed.


(** ** More of the concrete runs *)

Lemma demo_label_columns :
  Forall (λ img, ∃ n, shape (feature_matrix img).2 = [n; 1])
    (images_train demo_locals).
Proof.
  cbv [demo_locals images_train].
  repeat (apply Forall_cons_2; [by eexists|]). apply Forall_nil_2.
Qed.

Lemma demo_train_ids : NoDup (id_ <$> images_train demo_locals).
Proof. apply (bool_decide_unpack _). vm_compute. exact I. Qed.

Lemma demo_test_ids : NoDup (id_ <$> images_test_ demo_locals).
Proof. apply (bool_decide_unpack _). vm_compute. exact I. Qed.

Lemma demo_test_ids_relative :
  Forall (λ img, OsPath.is_abs (id_ img) = false) (images_test_ demo_locals).
Proof. repeat constructor. Qed.

Lemma demo_test_ids_plain :
  Forall (λ img, has_sep (id_ img) = false) (images_test_ demo_locals).
Proof. repeat constructor. Qed.

Lemma demo_report : report "testing" demo_final = Ok (tt, reported_again).
Proof. vm_compute. reflexivity. Qed.

Lemma shipped_normalization_pre :
  is_Some (pre_process_params shipped !! "normalization_pre").
Proof. exists false. vm_compute. reflexivity. Qed.

Lemma shipped_artifact_pre :
  is_Some (pre_process_params shipped !! "artifact_pre").
Proof. exists false. vm_compute. reflexivity. Qed.

Lemma small_labels :
  Forall (λ x, ∃ z, x = Qc_of_Z z ∧ (0 ≤ z < 256)%Z)
    (data (NdArray [3] [qz 1; qz 2; qz 1])).
Proof.
  cbv [data].
  repeat (apply Forall_cons_2; [eexists; split; [reflexivity|lia]|]).
  apply Forall_nil_2.
Qed.

(** X2 on the concrete collaborators: a training directory without
    subjects. *)
Lemma X2_witness :
  crawler_data "nowhere" = [] ∧
  read_atlas "atlas" = Ok tt ∧
  is_Some (pre_process_params shipped !! "normalization_pre") ∧
  is_Some (pre_process_params shipped !! "artifact_pre") ∧
  main_with shipped "out" "atlas" "nowhere" "test" world0 = Err IndexError.
Proof.
  split; [reflexivity|]. split; [reflexivity|].
  split; [exact shipped_normalization_pre|].
  split; [exact shipped_artifact_pre|].
  exact (X2_no_training_subject_raises shipped "out" "atlas" "nowhere" "test"
           world0 tt eq_refl eq_refl shipped_normalization_pre
           shipped_artifact_pre).
Defined.

(** X4 on the world the shipped run ends in. *)
Lemma X4_witness :
  report "testing" demo_final = Ok (tt, reported_again) ∧
  ∃ c1 c2 t1 t2,
    reported_again =
      add_trace [EvReport (mean_title "testing") c1;
                 EvReport (std_title "testing") c2] demo_final ∧
    sum_axis0 (feature_mean_intensities demo_final) = Ok t1 ∧
    sum_axis0 (feature_std_intensities demo_final) = Ok t2 ∧
    c1.*1 = table_header ∧ c2.*1 = table_header ∧
    Forall2 (λ p cell,
        getitem2 (divide t1 (length (feature_mean_intensities demo_final)))
          p.1 p.2 = Ok cell.2) table_positions c1 ∧
    Forall2 (λ p cell,
        getitem2 (divide t2 (length (feature_std_intensities demo_final)))
          p.1 p.2 = Ok cell.2) table_positions c2.
Proof.
  split; [exact demo_report|].
  exact (X4_report_tables "testing" demo_final tt reported_again demo_report).
Defined.

(** X8 on three labels. *)
Lemma X8_witness :
  Forall (λ x, ∃ z, x = Qc_of_Z z ∧ (0 ≤ z < 256)%Z)
    (data (NdArray [3] [qz 1; qz 2; qz 1])) ∧
  astype_uint8 (NdArray [3] [qz 1; qz 2; qz 1]) = NdArray [3] [qz 1; qz 2; qz 1].
Proof.
  split; [exact small_labels|].
  exact (X8_label_cast_keeps_small_labels _ small_labels).
Defined.

(** X1 on the concrete run: two training and two test subjects. *)
Lemma X1_witness :
  main_with shipped "out" "atlas" "train" "test" world0 = Ok (demo_locals, demo_final) ∧
  (crawler_data "train" ≠ [] ∧ crawler_data "test" ≠ [] ∧
  length (images_train demo_locals) = length (crawler_data "train") ∧
  length (images_test_ demo_locals) = length (crawler_data "test")).
Proof.
  split; [exact demo_run|].
  exact (X1_completed_run_has_subjects shipped "out" "atlas" "train" "test" world0
           demo_locals demo_final demo_run).
Defined.

(** X5 on the concrete run: both batches are handed the same method. *)
Lemma X5_witness :
  main_with shipped "out" "atlas" "train" "test" world0 = Ok (demo_locals, demo_final) ∧
  (∃ new (enabled : bool),
    trace demo_final = trace world0 ++ new ∧
    pre_process_params shipped !! "normalization_pre" = Some enabled ∧
    let nm := if enabled then chosen_norm_method shipped else "no" in
    norm_methods new = [nm; nm] ∧
    (take (2 * length (images_train demo_locals)) (written new)).*1.*2 =
      mjoin ((λ img, [t1w_path nm img; t2w_path nm img]) <$> images_train demo_locals)).
Proof.
  split; [exact demo_run|].
  exact (X5_one_normalization_method shipped "out" "atlas" "train" "test" world0
           demo_locals demo_final demo_run).
Defined.

(** X6 on the concrete run: 20 trees, depth 25, all features. *)
Lemma X6_witness :
  main_with shipped "out" "atlas" "train" "test" world0 = Ok (demo_locals, demo_final) ∧
  (n_estimators (hyper (forest_ demo_locals)) = 20 ∧
  max_depth (hyper (forest_ demo_locals)) = 25 ∧
  shape (data_train demo_locals) !! 1 = Some (max_features (hyper (forest_ demo_locals))) ∧
  rows (data_train demo_locals) =
    sum_list ((λ img, rows (feature_matrix img).1) <$> images_train demo_locals)).
Proof.
  split; [exact demo_run|].
  exact (X6_forest_hyperparameters shipped "out" "atlas" "train" "test" world0
           demo_locals demo_final demo_run).
Defined.

(** X7 on the concrete run: five labels in a vector. *)
Lemma X7_witness :
  main_with shipped "out" "atlas" "train" "test" world0 = Ok (demo_locals, demo_final) ∧
  Forall (λ img, ∃ n, shape (feature_matrix img).2 = [n; 1]) (images_train demo_locals) ∧
  (let N := sum_list ((λ img, rows (feature_matrix img).2) <$> images_train demo_locals) in
  shape (labels_train demo_locals) = (if decide (N = 1) then [] else [N]) ∧
  data (labels_train demo_locals) = mjoin ((λ img, data (feature_matrix img).2) <$> images_train demo_locals)).
Proof.
  split; [exact demo_run|].
  split; [exact demo_label_columns|].
  exact (X7_label_vector_shape shipped "out" "atlas" "train" "test" world0
           demo_locals demo_final demo_run demo_label_columns).
Defined.

(** X9 on the concrete run: the directory comes first. *)
Lemma X9_witness :
  main_with shipped "out" "atlas" "train" "test" world0 = Ok (demo_locals, demo_final) ∧
  (∃ pre post nm,
    let rdir := OsPath.join "out" (now world0) in
    trace demo_final = trace world0 ++ pre ++ [EvMakedirs rdir; EvInitEvaluator rdir] ++ post ∧
    evaluation_records pre = [] ∧
    written pre = export_writes nm (images_train demo_locals) ∧
    written post =
      result_writes rdir (images_test_ demo_locals) (images_prediction_ demo_locals)
        (images_post_processed_ demo_locals) ∧
    length (evaluation_records post) = 2 * length (images_test_ demo_locals)).
Proof.
  split; [exact demo_run|].
  exact (X9_result_directory_first shipped "out" "atlas" "train" "test" world0
           demo_locals demo_final demo_run).
Defined.

(** X10 on the concrete run: eight files, eight paths. *)
Lemma X10_witness :
  main_with shipped "out" "atlas" "train" "test" world0 = Ok (demo_locals, demo_final) ∧
  NoDup (id_ <$> images_train demo_locals) ∧
  NoDup (id_ <$> images_test_ demo_locals) ∧
  Forall (λ img, OsPath.is_abs (id_ img) = false) (images_test_ demo_locals) ∧
  (∃ new, trace demo_final = trace world0 ++ new ∧ NoDup (written_paths new)).
Proof.
  split; [exact demo_run|].
  split; [exact demo_train_ids|].
  split; [exact demo_test_ids|].
  split; [exact demo_test_ids_relative|].
  exact (X10_no_file_written_twice shipped "out" "atlas" "train" "test" world0
           demo_locals demo_final demo_run demo_train_ids demo_test_ids demo_test_ids_relative).
Defined.

(** X11 on the concrete run: the tags of the four records. *)
Lemma X11_witness :
  main_with shipped "out" "atlas" "train" "test" world0 = Ok (demo_locals, demo_final) ∧
  (∃ new,
    trace demo_final = trace world0 ++ new ∧
    evaluation_tags new =
      (id_ <$> images_test_ demo_locals) ++ ((λ img, id_ img +:+ "-PP") <$> images_test_ demo_locals) ∧
    (NoDup (evaluation_tags new) ↔
     NoDup (id_ <$> images_test_ demo_locals) ∧
     ∀ a b, a ∈ images_test_ demo_locals → b ∈ images_test_ demo_locals → id_ a ≠ id_ b +:+ "-PP")).
Proof.
  split; [exact demo_run|].
  exact (X11_evaluation_tags_distinct shipped "out" "atlas" "train" "test" world0
           demo_locals demo_final demo_run).
Defined.

(** X12 on the concrete run: every evaluated volume is saved. *)
Lemma X12_witness :
  main_with shipped "out" "atlas" "train" "test" world0 = Ok (demo_locals, demo_final) ∧
  (∃ new,
    trace demo_final = trace world0 ++ new ∧
    ∀ i img, images_test_ demo_locals !! i = Some img →
      ∃ seg pp,
        images_prediction_ demo_locals !! i = Some seg ∧
        images_post_processed_ demo_locals !! i = Some pp ∧
        (seg, images img !!! GroundTruth, id_ img) ∈ evaluation_records new ∧
        (seg, OsPath.join (OsPath.join "out" (now world0)) (id_ img +:+ "_SEG.mha"), true)
          ∈ written new ∧
        (pp, images img !!! GroundTruth, id_ img +:+ "-PP")
          ∈ evaluation_records new ∧
        (pp, OsPath.join (OsPath.join "out" (now world0)) (id_ img +:+ "_SEG-PP.mha"), true)
          ∈ written new).
Proof.
  split; [exact demo_run|].
  exact (X12_evaluated_volumes_are_saved shipped "out" "atlas" "train" "test" world0
           demo_locals demo_final demo_run).
Defined.

(** X16 on the concrete run: the segmentations lie directly in the result directory. *)
Lemma X16_witness :
  main_with shipped "out" "atlas" "train" "test" world0 = Ok (demo_locals, demo_final) ∧
  Forall (λ img, has_sep (id_ img) = false) (images_test_ demo_locals) ∧
  (∃ new,
    trace demo_final = trace world0 ++ new ∧
    ∀ x path, (x, path, true) ∈ written new →
      directly_in (OsPath.join "out" (now world0)) path).
Proof.
  split; [exact demo_run|].
  split; [exact demo_test_ids_plain|].
  exact (X16_segmentations_in_result_directory shipped "out" "atlas" "train" "test" world0
           demo_locals demo_final demo_run demo_test_ids_plain).
Defined.
